(** * PyPoE.poe.patchserver: the patch-server client

    A shallow embedding of [src/PyPoE/poe/patchserver.py] (class [Patch] and
    the two socket helpers) together with the parts of the Python runtime the
    module calls into: [struct.unpack], [io.BytesIO.read],
    [bytes.decode('utf-16')], [str.strip], [str.rsplit], [os.path.split],
    [os.path.join], [os.makedirs], [open(..., 'wb')], [urllib.request.urlopen]
    and the socket calls.

    Conventions.
    - A Python [str] is the list of its code points ([pystr]); [bytes] is a
      list of [byte].
    - Methods are computations in a state-and-exception monad [Py] over a
      [World]: the attributes of the [Patch] object, the file system, the log
      of HTTP requests issued and the log of socket operations.
    - What the outside world answers (the patch server's reply, the HTTP
      servers' behaviour, whether a socket call fails) is an [Env] value the
      methods are parameterised by. *)

From Stdlib Require Import ZArith NArith Lia List.
From Stdlib.Strings Require Import Ascii String Byte.
From Stdlib Require DecimalString.
From stdpp Require Import base option list gmap.

Local Open Scope N_scope.

(** ** Python values *)

Abbreviation pystr := (list N).
Abbreviation bytes := (list byte).

(** A literal: the code points of an ASCII string. *)
Definition str (s : string) : pystr := N_of_ascii <$> list_ascii_of_string s.

Definition slash : N := 47.

(** [bool(x)] for an optional string argument: [None] and [''] are falsy. *)
Definition truthy (o : option pystr) : bool :=
  match o with
  | Some (_ :: _) => true
  | _ => false
  end.

(** ** Exceptions *)

(** The [reason] attribute of a [URLError]: the exception [urlopen] wrapped (an
    [OSError] such as [ConnectionRefusedError], [socket.gaierror],
    [ssl.SSLError], [socket.timeout]) or, for an [HTTPError], the message. *)
Inductive url_reason :=
| ReasonConnectionRefused
| ReasonOSError (what : string)
| ReasonMessage (msg : string).

Inductive exn :=
| ValueError (msg : string)
| TypeError
| AttributeError (attr : string)
| StructError                            (* struct.error *)
| UnicodeDecodeError
| URLError (reason : url_reason)
| HTTPError (code : Z) (msg : string)    (* a subclass of URLError *)
| FileNotFoundError
| FileExistsError
| NotADirectoryError
| IsADirectoryError
| ConnectionRefusedError
| OSError (what : string)
| OtherException (what : string).

(** [isinstance(e, OSError)]. *)
Definition is_OSError (e : exn) : bool :=
  match e with
  | URLError _ | HTTPError _ _ | FileNotFoundError | FileExistsError
  | NotADirectoryError | IsADirectoryError | ConnectionRefusedError
  | OSError _ => true
  | _ => false
  end.

(** [isinstance(e, URLError)]. *)
Definition is_URLError (e : exn) : bool :=
  match e with
  | URLError _ | HTTPError _ _ => true
  | _ => false
  end.

(** [e.reason] of an exception caught by [except URLError]; for an
    [HTTPError] the property returns the message. *)
Definition reason_of (e : exn) : url_reason :=
  match e with
  | URLError r => r
  | HTTPError _ msg => ReasonMessage msg
  | _ => ReasonMessage EmptyString
  end.

(** [isinstance(reason, ConnectionRefusedError)]. *)
Definition is_ConnectionRefusedError (r : url_reason) : bool :=
  match r with
  | ReasonConnectionRefused => true
  | _ => false
  end.

Inductive result (A : Type) :=
| Returns (a : A)
| Raises (e : exn).
Arguments Returns {A} a.
Arguments Raises {A} e.

(** ** UTF-16 *)

Module Utf16.

Definition byte_of_N (n : N) : byte :=
  match Byte.of_N (n mod 256) with
  | Some b => b
  | None => x00
  end.

Definition is_high_surrogate (u : N) : bool := (0xD800 <=? u) && (u <=? 0xDBFF).
Definition is_low_surrogate (u : N) : bool := (0xDC00 <=? u) && (u <=? 0xDFFF).

(** *** Decoding, as [codecs.utf_16_decode(input, 'strict', True)] does *)

(** The 16-bit code units of the input in the given byte order; [None] when
    a single byte is left over (``truncated data''). *)
Fixpoint code_units (little_endian : bool) (bs : bytes) : option (list N) :=
  match bs with
  | [] => Some []
  | [_] => None
  | b0 :: b1 :: rest =>
      let u := if little_endian
               then Byte.to_N b0 + 256 * Byte.to_N b1
               else 256 * Byte.to_N b0 + Byte.to_N b1 in
      cons u <$> code_units little_endian rest
  end.

(** Code units to code points: a high surrogate must be followed by a low
    one, and a low surrogate may not stand alone. *)
Fixpoint join_surrogates (us : list N) : option pystr :=
  match us with
  | [] => Some []
  | u :: rest =>
      if is_high_surrogate u then
        match rest with
        | u2 :: rest' =>
            if is_low_surrogate u2
            then cons (0x10000 + (u - 0xD800) * 0x400 + (u2 - 0xDC00))
                   <$> join_surrogates rest'
            else None
        | [] => None
        end
      else if is_low_surrogate u then None
      else cons u <$> join_surrogates rest
  end.

(** The byte order the ['utf-16'] codec uses when the input has no byte
    order mark is the host's; the model is of a little-endian host. *)
Definition native_little_endian : bool := true.

(** [bs.decode('utf-16')]: a leading FF FE or FE FF is a byte order mark; it
    selects the byte order and is not part of the text. *)
Definition decode (bs : bytes) : result pystr :=
  let '(little_endian, payload) :=
    match bs with
    | b0 :: b1 :: rest =>
        let bom := Byte.to_N b0 + 256 * Byte.to_N b1 in
        if bom =? 0xFEFF then (true, rest)
        else if bom =? 0xFFFE then (false, rest)
        else (native_little_endian, bs)
    | _ => (native_little_endian, bs)
    end in
  match code_units little_endian payload ≫= join_surrogates with
  | Some s => Returns s
  | None => Raises UnicodeDecodeError
  end.

(** *** Encoding, as the server side of the documented wire format does:
    UTF-16LE, no byte order mark *)

(** A code point that UTF-16 can encode: in range and not a surrogate. *)
Definition scalar (c : N) : Prop := c < 0xD800 ∨ (0xDFFF < c ∧ c <= 0x10FFFF).

Definition units_of (c : N) : list N :=
  if c <? 0x10000 then [c]
  else [0xD800 + (c - 0x10000) / 0x400; 0xDC00 + (c - 0x10000) mod 0x400].

Definition units_of_str (s : pystr) : list N := s ≫= units_of.

Definition bytes_of_unit_le (u : N) : bytes := [byte_of_N u; byte_of_N (u / 256)].

Definition encode_le (s : pystr) : bytes := units_of_str s ≫= bytes_of_unit_le.

End Utf16.

(** ** The [str] methods the module uses, for a one-character argument *)

Module PyStr.

(** [s.lstrip(c)]. *)
Fixpoint lstrip (c : N) (s : pystr) : pystr :=
  match s with
  | x :: s' => if x =? c then lstrip c s' else s
  | [] => []
  end.

(** [s.rstrip(c)]. *)
Definition rstrip (c : N) (s : pystr) : pystr := reverse (lstrip c (reverse s)).

(** [s.strip(c)]: every leading and every trailing [c] is removed. *)
Definition strip (c : N) (s : pystr) : pystr := rstrip c (lstrip c s).

(** [s.rpartition(c)] without the separator: what stands before the last
    [c] (if there is a [c]) and what stands after it. *)
Fixpoint rpartition (c : N) (s : pystr) : option pystr * pystr :=
  match s with
  | [] => (None, [])
  | x :: s' =>
      match rpartition c s' with
      | (Some before, after) => (Some (x :: before), after)
      | (None, after) => if x =? c then (Some [], after) else (None, x :: after)
      end
  end.

(** [s.rsplit(c, maxsplit=1)]. *)
Definition rsplit1 (c : N) (s : pystr) : list pystr :=
  match rpartition c s with
  | (Some before, after) => [before; after]
  | (None, after) => [after]
  end.

(** [s.split(c)]. *)
Fixpoint split (c : N) (s : pystr) : list pystr :=
  match s with
  | [] => [[]]
  | x :: s' =>
      if x =? c then [] :: split c s'
      else match split c s' with
           | w :: ws => (x :: w) :: ws
           | [] => [[x]]
           end
  end.

Definition startswith (c : N) (s : pystr) : bool :=
  match s with
  | x :: _ => x =? c
  | [] => false
  end.

Definition endswith (c : N) (s : pystr) : bool := startswith c (reverse s).

(** [l[-1]]. *)
Definition index_last {A} (l : list A) : result A :=
  match last l with
  | Some x => Returns x
  | None => Raises (OtherException "IndexError")
  end.

(** ['%s' % n] for an [int]. *)
Definition format_int (n : Z) : string :=
  DecimalString.NilZero.string_of_int (Z.to_int n).

End PyStr.

(** ** The file system, and the [os] and [os.path] functions (POSIX flavour)

    Directories and regular files only: no symbolic links, no permissions, no
    other process. A node is addressed by the list of directory entries that
    lead to it from the root; the root itself is always a directory. *)

Module Os.

Inductive node :=
| Dir
| File (content : bytes).

Record FS := mkFS {
  tree : gmap (list pystr) node;
  cwd : list pystr
}.

Definition node_at (t : gmap (list pystr) node) (p : list pystr) : option node :=
  match p with
  | [] => Some Dir
  | _ => t !! p
  end.

Definition dot : pystr := str ".".
Definition dotdot : pystr := str "..".

(** Where a component leads from directory [cur]. *)
Definition enter (cur : list pystr) (c : pystr) : list pystr :=
  if decide (c = dot) then cur
  else if decide (c = dotdot) then removelast cur
  else cur ++ [c].

(** Walk through components that must all be existing directories. *)
Fixpoint walk (t : gmap (list pystr) node) (cur : list pystr) (cs : list pystr)
  : result (list pystr) :=
  match cs with
  | [] => Returns cur
  | c :: cs' =>
      match node_at t (enter cur c) with
      | Some Dir => walk t (enter cur c) cs'
      | Some (File _) => Raises NotADirectoryError
      | None => Raises FileNotFoundError
      end
  end.

Inductive resolved :=
| Existing (p : list pystr) (n : node)
| Missing (p : list pystr).

(** The last component [c] of a pathname, looked up in the directory
    [parent]. A pathname with a trailing slash cannot name a regular file
    (ENOTDIR). *)
Definition resolve_last (t : gmap (list pystr) node) (trailing_slash : bool)
    (parent : list pystr) (c : pystr) : result resolved :=
  match node_at t (enter parent c) with
  | Some Dir => Returns (Existing (enter parent c) Dir)
  | Some (File b) =>
      if trailing_slash then Raises NotADirectoryError
      else Returns (Existing (enter parent c) (File b))
  | None =>
      if decide (c = dot ∨ c = dotdot) then Raises FileNotFoundError
      else Returns (Missing (enter parent c))
  end.

(** Resolution of a non-empty pathname from the directory [start]: every
    component but the last must be an existing directory. *)
Definition resolve_from (t : gmap (list pystr) node) (start : list pystr)
    (name : pystr) : result resolved :=
  let cs := filter (λ c, c ≠ []) (PyStr.split slash name) in
  match node_at t start with
  | Some Dir =>
      match walk t start (removelast cs) with
      | Raises e => Raises e
      | Returns parent =>
          match last cs with
          | None => Returns (Existing parent Dir)
          | Some c => resolve_last t (PyStr.endswith slash name) parent c
          end
      end
  | _ => Raises FileNotFoundError
  end.

(** Pathname resolution: the empty pathname does not resolve (ENOENT); an
    absolute pathname starts at the root, any other at the working
    directory. *)
Definition resolve (fs : FS) (name : pystr) : result resolved :=
  match name with
  | [] => Raises FileNotFoundError
  | _ =>
      resolve_from (tree fs)
        (if PyStr.startswith slash name then [] else cwd fs) name
  end.

(** [os.path.exists(name)]: whether [os.stat(name)] succeeds. *)
Definition exists_ (fs : FS) (name : pystr) : bool :=
  match resolve fs name with
  | Returns (Existing _ _) => true
  | _ => false
  end.

(** [os.path.isdir(name)]. *)
Definition isdir (fs : FS) (name : pystr) : bool :=
  match resolve fs name with
  | Returns (Existing _ Dir) => true
  | _ => false
  end.

(** [os.mkdir(name)]. *)
Definition mkdir (name : pystr) (fs : FS) : FS * result unit :=
  match resolve fs name with
  | Raises e => (fs, Raises e)
  | Returns (Existing _ _) => (fs, Raises FileExistsError)
  | Returns (Missing p) => (mkFS (<[p := Dir]> (tree fs)) (cwd fs), Returns tt)
  end.

(** [open(name, mode='wb')]: the file is created, or truncated when it
    exists, at the time of the call. The result stands for the file object:
    the node it writes to. *)
Definition open_wb (name : pystr) (fs : FS) : FS * result (list pystr) :=
  match resolve fs name with
  | Raises e => (fs, Raises e)
  | Returns (Existing _ Dir) => (fs, Raises IsADirectoryError)
  | Returns (Existing p (File _)) =>
      (mkFS (<[p := File []]> (tree fs)) (cwd fs), Returns p)
  | Returns (Missing p) =>
      if PyStr.endswith slash name then (fs, Raises IsADirectoryError)
      else (mkFS (<[p := File []]> (tree fs)) (cwd fs), Returns p)
  end.

(** [f.write(data)] followed by the flush at [f.close()]; [data] is [None]
    when the expression written evaluated to [None], and [f.write] rejects
    it before any output. Writing bytes can fail (a full disk, an I/O
    error): [failure] is then the exception raised and the number of bytes
    that had reached the file. *)
Definition write (failure : option (exn * nat)) (f : list pystr)
    (data : option bytes) (fs : FS) : FS * result unit :=
  match data with
  | Some b =>
      match failure with
      | Some (e, written) =>
          (mkFS (<[f := File (take written b)]> (tree fs)) (cwd fs), Raises e)
      | None => (mkFS (<[f := File b]> (tree fs)) (cwd fs), Returns tt)
      end
  | None => (fs, Raises TypeError)
  end.

(** [posixpath.split(p)]. *)
Definition path_split (p : pystr) : pystr * pystr :=
  let '(head, tail) :=
    match PyStr.rpartition slash p with
    | (Some before, after) => (before ++ [slash], after)
    | (None, after) => ([], after)
    end in
  (if bool_decide (head ≠ []) && negb (bool_decide (Forall (λ x, x = slash) head))
   then PyStr.rstrip slash head else head,
   tail).

(** [posixpath.join(a, b)]. *)
Definition path_join (a b : pystr) : pystr :=
  if PyStr.startswith slash b then b
  else if bool_decide (a = []) || PyStr.endswith slash a then a ++ b
  else a ++ [slash] ++ b.

(** [os.makedirs(name, exist_ok=True)]:
<<
    head, tail = path.split(name)
    if not tail:
        head, tail = path.split(head)
    if head and tail and not path.exists(head):
        try:
            makedirs(head, exist_ok=exist_ok)
        except FileExistsError:
            pass
        if tail == curdir:
            return
    try:
        mkdir(name, mode)
    except OSError:
        if not exist_ok or not path.isdir(name):
            raise
>>
    The recursion is on the head of the name, which is shorter than the name
    whenever the call is made; [fuel] bounds its depth. *)
Definition mkdir_exist_ok (name : pystr) (fs : FS) : FS * result unit :=
  match mkdir name fs with
  | (fs', Raises e) =>
      if is_OSError e && isdir fs' name then (fs', Returns tt) else (fs', Raises e)
  | (fs', Returns _) => (fs', Returns tt)
  end.

Fixpoint makedirs_rec (fuel : nat) (name : pystr) (fs : FS) : FS * result unit :=
  match fuel with
  | O => (fs, Raises (OtherException "RecursionError"))
  | S fuel' =>
      let '(head, tail) := path_split name in
      let '(head, tail) :=
        match tail with
        | [] => path_split head
        | _ => (head, tail)
        end in
      if bool_decide (head ≠ []) && bool_decide (tail ≠ []) && negb (exists_ fs head)
      then
        let after_parents (fs1 : FS) :=
          if bool_decide (tail = dot) then (fs1, Returns tt)
          else mkdir_exist_ok name fs1 in
        match makedirs_rec fuel' head fs with
        | (fs1, Raises FileExistsError) => after_parents fs1
        | (fs1, Raises e) => (fs1, Raises e)
        | (fs1, Returns _) => after_parents fs1
        end
      else mkdir_exist_ok name fs
  end.

Definition makedirs (name : pystr) (fs : FS) : FS * result unit :=
  makedirs_rec (S (length name)) name fs.

End Os.

(** ** The world a [Patch] object lives in *)

(** The attributes of a [Patch] instance; [None] is an attribute that has not
    been assigned (reading it raises [AttributeError]). *)
Record Patch := mkPatch {
  _master_server : pystr * Z;
  patch_url : option pystr;
  patch_cdn_url : option pystr;
  sock_fd : option Z
}.

(** A socket operation, recorded with the descriptor it was made on. *)
Inductive sock_op :=
| SockConnect (address : pystr * Z)
| SockSend (data : bytes)
| SockRecv (bufsize : nat)
| SockDetach
| SockShutdown
| SockClose.

Record World := mkWorld {
  self : Patch;
  disk : Os.FS;
  requests : list pystr;          (* every url passed to urlopen, oldest first *)
  sock_log : list (Z * sock_op)   (* every socket operation, oldest first *)
}.

(** What [urlopen] hands to the [with] block. *)
Record http_response := mkResponse {
  getcode : Z;
  read : result bytes
}.

(** The behaviour of everything outside the process. *)
Record Env := mkEnv {
  fileno : Z;                       (* descriptor of the socket being created *)
  connect_error : option exn;
  send_error : option exn;
  recv_result : result bytes;       (* the bytes pending when recv is called *)
  fromfd_error : option exn;
  shutdown_error : option exn;
  close_error : option exn;
  (** the outcome of the n-th [urlopen] call of the run, given its url *)
  urlopen : nat → pystr → result http_response;
  (** whether writing the downloaded file fails, and after how many bytes *)
  write_error : option (exn * nat)
}.

(** ** The state-and-exception monad *)

Definition Py (A : Type) : Type := World → World * result A.

Definition ret {A} (a : A) : Py A := λ w, (w, Returns a).
Definition raise {A} (e : exn) : Py A := λ w, (w, Raises e).
Definition bind {A B} (m : Py A) (k : A → Py B) : Py B :=
  λ w, match m w with
       | (w', Returns a) => k a w'
       | (w', Raises e) => (w', Raises e)
       end.

Declare Scope py_scope.
Delimit Scope py_scope with py.
Notation "x <- m ;; k" := (bind m (λ x, k))
  (at level 100, m at next level, right associativity) : py_scope.
Notation "m ;; k" := (bind m (λ _, k))
  (at level 100, right associativity) : py_scope.

(** [try: m except <class> as e: handler e], for the exceptions [catches]
    selects; any other exception propagates. *)
Definition try_except {A} (m : Py A) (catches : exn → bool) (handler : exn → Py A) : Py A :=
  λ w, match m w with
       | (w', Raises e) => if catches e then handler e w' else (w', Raises e)
       | r => r
       end.

(** Lift a pure computation that may raise. *)
Definition lift {A} (r : result A) : Py A := λ w, (w, r).

(** Fail with [e] when the environment says so. *)
Definition may_fail (o : option exn) : Py unit :=
  match o with
  | Some e => raise e
  | None => ret tt
  end.

Definition log_sock (fd : Z) (op : sock_op) : Py unit :=
  λ w, (mkWorld (self w) (disk w) (requests w) (sock_log w ++ [(fd, op)]), Returns tt).

Definition get_self : Py Patch := λ w, (w, Returns (self w)).
Definition set_self (p : Patch) : Py unit :=
  λ w, (mkWorld p (disk w) (requests w) (sock_log w), Returns tt).

(** [self.<attr>] for an attribute that may not have been assigned yet. *)
Definition getattr {A} (name : string) (field : Patch → option A) : Py A :=
  λ w, match field (self w) with
       | Some a => (w, Returns a)
       | None => (w, Raises (AttributeError name))
       end.

(** Run a file-system call on the disk. *)
Definition on_disk {A} (f : Os.FS → Os.FS * result A) : Py A :=
  λ w, let '(fs, r) := f (disk w) in
       (mkWorld (self w) fs (requests w) (sock_log w), r).

(** ** [PyPoE/poe/patchserver.py] *)

Section PatchServer.

Variable env : Env.

(** *** Sockets *)

Definition sock_connect (sock : Z) (address : pystr * Z) : Py unit :=
  (log_sock sock (SockConnect address) ;; may_fail (connect_error env))%py.

Definition sock_send (sock : Z) (data : bytes) : Py unit :=
  (log_sock sock (SockSend data) ;; may_fail (send_error env))%py.

(** [sock.recv(bufsize)]: at most [bufsize] of the pending bytes. *)
Definition sock_recv (sock : Z) (bufsize : nat) : Py bytes :=
  (log_sock sock (SockRecv bufsize) ;;
   data <- lift (recv_result env) ;;
   ret (take bufsize data))%py.

Definition sock_detach (sock : Z) : Py Z :=
  (log_sock sock SockDetach ;; ret sock)%py.

Definition sock_shutdown (sock : Z) : Py unit :=
  (log_sock sock SockShutdown ;; may_fail (shutdown_error env))%py.

Definition sock_close (sock : Z) : Py unit :=
  (log_sock sock SockClose ;; may_fail (close_error env))%py.

(** [with socket.socket(proto=socket.IPPROTO_TCP) as sock: body]. When the
    body raises, leaving the block closes the socket; when it ends normally
    it has detached the socket (its last statement) and leaving the block
    closes nothing. *)
Definition with_socket {A} (body : Z → Py A) : Py A :=
  try_except (body (fileno env)) (λ _, true)
    (λ e, log_sock (fileno env) SockClose ;; raise e)%py.

(** [socket_fd_open(socket_fd)]: [socket.fromfd] builds the socket object on a
    duplicate of the descriptor; operations on it are recorded against the
    descriptor it was built from. *)
Definition socket_fd_open (socket_fd : Z) : Py Z :=
  (may_fail (fromfd_error env) ;; ret socket_fd)%py.

Definition socket_fd_close (socket_fd : Z) : Py unit :=
  (sock <- socket_fd_open socket_fd ;;
   sock_shutdown sock ;;
   sock_close sock)%py.

(** *** [struct.unpack] and [io.BytesIO] *)

(** [struct.unpack('B', b)[0]]. *)
Definition unpack_B (b : bytes) : result N :=
  match b with
  | [x] => Returns (Byte.to_N x)
  | _ => Raises StructError
  end.

(** [struct.unpack('33s', b)[0]]. *)
Definition unpack_33s (b : bytes) : result bytes :=
  if bool_decide (length b = 33%nat) then Returns b else Raises StructError.

(** [data.read(n)] on an [io.BytesIO]: the next [n] bytes, or as many as are
    left, and the stream after them. *)
Definition BytesIO_read (n : nat) (data : bytes) : bytes * bytes :=
  (take n data, drop n data).

(** *** class [Patch] *)

Definition _SERVER : pystr := str "pathofexile.com".
Definition _PORT : Z := 12995.
Definition _PROTO : bytes := [x01; x04].

Definition set_patch_url (v : pystr) : Py unit :=
  (p <- get_self ;;
   set_self (mkPatch (_master_server p) (Some v) (patch_cdn_url p) (sock_fd p)))%py.

Definition set_patch_cdn_url (v : pystr) : Py unit :=
  (p <- get_self ;;
   set_self (mkPatch (_master_server p) (patch_url p) (Some v) (sock_fd p)))%py.

Definition set_sock_fd (v : Z) : Py unit :=
  (p <- get_self ;;
   set_self (mkPatch (_master_server p) (patch_url p) (patch_cdn_url p) (Some v)))%py.

Definition update_patch_urls : Py unit :=
  with_socket (λ sock,
    p <- get_self ;;
    sock_connect sock (_master_server p) ;;
    sock_send sock _PROTO ;;
    data <- sock_recv sock 1024 ;;
    let '(chunk, data) := BytesIO_read 1 data in
    unknown <- lift (unpack_B chunk) ;;
    let '(chunk, data) := BytesIO_read 33 data in
    blank <- lift (unpack_33s chunk) ;;
    let '(chunk, data) := BytesIO_read 1 data in
    url_length <- lift (unpack_B chunk) ;;
    let '(chunk, data) := BytesIO_read (N.to_nat url_length * 2) data in
    url <- lift (Utf16.decode chunk) ;;
    set_patch_url url ;;
    let '(chunk, data) := BytesIO_read 1 data in
    blank <- lift (unpack_B chunk) ;;
    let '(chunk, data) := BytesIO_read 1 data in
    url2_length <- lift (unpack_B chunk) ;;
    let '(chunk, data) := BytesIO_read (N.to_nat url2_length * 2) data in
    url2 <- lift (Utf16.decode chunk) ;;
    set_patch_cdn_url url2 ;;
    fd <- sock_detach sock ;;
    set_sock_fd fd)%py.

(** [Patch(master_server, master_port)]: the object starts with no attribute. *)
Definition __init__ (master_server : pystr) (master_port : Z) : Py unit :=
  (set_self (mkPatch (master_server, master_port) None None None) ;;
   update_patch_urls)%py.

Definition __del__ : Py unit :=
  (fd <- getattr "sock_fd" sock_fd ;;
   sock <- socket_fd_open fd ;;
   try_except (sock_shutdown sock) is_OSError (λ _, ret tt) ;;
   try_except (sock_close sock) is_OSError (λ e, raise e))%py.

(** [request.urlopen(url=url)]. *)
Definition request_urlopen (url : pystr) : Py http_response :=
  λ w, (mkWorld (self w) (disk w) (requests w ++ [url]) (sock_log w),
        urlopen env (length (requests w)) url).

(** The body of the [try] in [download_raw]. *)
Definition download_raw_try (url : pystr) : Py bytes :=
  (robj <- request_urlopen url ;;
   if negb (getcode robj =? 200)%Z
   then raise (ValueError ("HTTP response code: " ++ PyStr.format_int (getcode robj)))
   else lift (read robj))%py.

(** The [for index, host in enumerate(hosts)] loop of [download_raw], from
    the pairs that remain. The [try] yields [Some body] when it reached
    [return]; the handler yields [None] when it lets the loop go on. Running
    off the end of the loop returns [None]. *)
Fixpoint download_raw_for (len_hosts : nat) (file_path : pystr)
    (remaining : list (nat * pystr)) : Py (option bytes) :=
  match remaining with
  | [] => ret None
  | (index, host) :: remaining' =>
      (returned <-
         try_except
           (body <- download_raw_try (host ++ file_path) ;; ret (Some body))
           is_URLError
           (λ url_error,
              if negb (is_ConnectionRefusedError (reason_of url_error))
                 || negb (index <? len_hosts)%nat
              then raise url_error
              else ret None) ;;
       match returned with
       | Some body => ret (Some body)
       | None => download_raw_for len_hosts file_path remaining'
       end)%py
  end.

Definition download_raw (file_path : pystr) : Py (option bytes) :=
  (cdn <- getattr "patch_cdn_url" patch_cdn_url ;;
   url <- getattr "patch_url" patch_url ;;
   let hosts := [cdn; url] in
   download_raw_for (length hosts) file_path (imap (λ index host, (index, host)) hosts))%py.

(** The [if dst_dir: ... elif dst_file: ... else: raise ValueError(...)] that
    opens [download]. *)
Definition download_write_path (file_path : pystr) (dst_dir dst_file : option pystr)
  : result pystr :=
  if truthy dst_dir then Returns (Os.path_join (default [] dst_dir) file_path)
  else if truthy dst_file then Returns (default [] dst_file)
  else Raises (ValueError "Either dst_dir or dst_file must be set").

(** The [with open(write_path, mode='wb') as f] block opens the file before
    the argument of [f.write] is evaluated. *)
Definition download (file_path : pystr) (dst_dir dst_file : option pystr) : Py unit :=
  (write_path <- lift (download_write_path file_path dst_dir dst_file) ;;
   on_disk (Os.makedirs (Os.path_split write_path).1) ;;
   f <- on_disk (Os.open_wb write_path) ;;
   data <- download_raw file_path ;;
   on_disk (Os.write (write_error env) f data))%py.

Definition version : Py pystr :=
  (url <- getattr "patch_url" patch_url ;;
   lift (PyStr.index_last (PyStr.rsplit1 slash (PyStr.strip slash url))))%py.

End PatchServer.

(** * Vocabulary of the properties *)

(** ** Worlds reached *)

(** The world after the given urls have been requested. *)
Definition with_requests (w : World) (urls : list pystr) : World :=
  mkWorld (self w) (disk w) (requests w ++ urls) (sock_log w).

(** The world after the given socket operations. *)
Definition with_sock_ops (w : World) (ops : list (Z * sock_op)) : World :=
  mkWorld (self w) (disk w) (requests w) (sock_log w ++ ops).

(** ** The candidate loop of [download_raw] *)

(** What one attempt yields: the outcome of [urlopen], then the status check,
    then [read]. *)
Definition attempt (env : Env) (n : nat) (url : pystr) : result bytes :=
  match urlopen env n url with
  | Returns robj =>
      if negb (getcode robj =? 200)%Z
      then Raises (ValueError ("HTTP response code: " ++ PyStr.format_int (getcode robj)))
      else read robj
  | Raises e => Raises e
  end.

(** The exceptions after which the loop goes on to the next candidate. *)
Definition falls_back (len_hosts index : nat) (e : exn) : bool :=
  is_URLError e && is_ConnectionRefusedError (reason_of e) && (index <? len_hosts)%nat.

(** ** Frames *)

(** [keeps f m]: running [m] does not change the component [f] of the world,
    whether [m] returns or raises. *)
Definition keeps {A B} (f : World → B) (m : Py A) : Prop :=
  ∀ w, f (m w).1 = f w.

(** The components of the world an HTTP request does not touch. *)
Definition off_network {B} (f : World → B) : Prop :=
  ∀ w urls, f (with_requests w urls) = f w.

(** ** The handshake, seen as a parse of the bytes received *)

(** How the parse in [update_patch_urls] ends on the bytes received, and
    which assignments it has made by then. *)
Inductive parse_outcome :=
| FailedBeforeUrl (e : exn)                 (* nothing assigned *)
| FailedAfterUrl (url : pystr) (e : exn)    (* [patch_url] assigned, then raised *)
| Parsed (url cdn : pystr).

(** From the first text on: [url_length] has been read. *)
Definition parse_texts (url_length : N) (data : bytes) : parse_outcome :=
  let '(chunk, data) := BytesIO_read (N.to_nat url_length * 2) data in
  match Utf16.decode chunk with
  | Raises e => FailedBeforeUrl e
  | Returns url =>
  let '(chunk, data) := BytesIO_read 1 data in
  match unpack_B chunk with
  | Raises e => FailedAfterUrl url e
  | Returns _ =>
  let '(chunk, data) := BytesIO_read 1 data in
  match unpack_B chunk with
  | Raises e => FailedAfterUrl url e
  | Returns url2_length =>
  let '(chunk, data) := BytesIO_read (N.to_nat url2_length * 2) data in
  match Utf16.decode chunk with
  | Raises e => FailedAfterUrl url e
  | Returns cdn => Parsed url cdn
  end end end end.

(** The whole parse: three fixed fields, then the texts. *)
Definition parse_handshake (data : bytes) : parse_outcome :=
  let '(chunk, data) := BytesIO_read 1 data in
  match unpack_B chunk with
  | Raises e => FailedBeforeUrl e
  | Returns _ =>
  let '(chunk, data) := BytesIO_read 33 data in
  match unpack_33s chunk with
  | Raises e => FailedBeforeUrl e
  | Returns _ =>
  let '(chunk, data) := BytesIO_read 1 data in
  match unpack_B chunk with
  | Raises e => FailedBeforeUrl e
  | Returns url_length => parse_texts url_length data
  end end end.

(** The socket operations of a handshake on descriptor [fd], up to [recv]. *)
Definition handshake_ops (fd : Z) (address : pystr * Z) : list (Z * sock_op) :=
  [(fd, SockConnect address); (fd, SockSend _PROTO); (fd, SockRecv 1024)].

(** The world [update_patch_urls] leaves, by the outcome of the parse. *)
Definition after_handshake (env : Env) (w : World) (o : parse_outcome)
  : World * result unit :=
  let p := self w in
  let ops := handshake_ops (fileno env) (_master_server p) in
  match o with
  | FailedBeforeUrl e =>
      (mkWorld p (disk w) (requests w)
         (sock_log w ++ ops ++ [(fileno env, SockClose)]),
       Raises e)
  | FailedAfterUrl url e =>
      (mkWorld (mkPatch (_master_server p) (Some url) (patch_cdn_url p) (sock_fd p))
         (disk w) (requests w)
         (sock_log w ++ ops ++ [(fileno env, SockClose)]),
       Raises e)
  | Parsed url cdn =>
      (mkWorld (mkPatch (_master_server p) (Some url) (Some cdn) (Some (fileno env)))
         (disk w) (requests w)
         (sock_log w ++ ops ++ [(fileno env, SockDetach)]),
       Returns tt)
  end.

(** ** The reply on the wire *)

(** The documented layout of the reply, for two texts encoded in UTF-16LE
    and counted in code units. *)
Definition handshake_response (unknown : byte) (blank33 : bytes) (url : pystr)
    (blank : byte) (cdn : pystr) : bytes :=
  [unknown] ++ blank33
  ++ [Utf16.byte_of_N (N.of_nat (length (Utf16.units_of_str url)))]
  ++ Utf16.encode_le url
  ++ [blank]
  ++ [Utf16.byte_of_N (N.of_nat (length (Utf16.units_of_str cdn)))]
  ++ Utf16.encode_le cdn.

(** A text whose first code point would read as a byte order mark once
    encoded ([U+FEFF] gives FF FE, [U+FFFE] gives FE FF) is not returned as
    it was by the ['utf-16'] codec. *)
Definition no_bom (s : pystr) : Prop :=
  match s with
  | c :: _ => c ≠ 0xFEFF ∧ c ≠ 0xFFFE
  | [] => True
  end.

#[global] Instance scalar_dec c : Decision (Utf16.scalar c).
Proof. unfold Utf16.scalar. apply _. Defined.

(** ** Sample worlds and environments *)

(** A [Patch] object before and after a handshake. *)
Definition fresh : Patch := mkPatch (_SERVER, _PORT) None None None.

Definition discovered : Patch :=
  mkPatch (_SERVER, _PORT)
    (Some (str "http://patch.example/3.23.0.1/"))
    (Some (str "http://cdn.example/3.23.0.1/"))
    (Some 3%Z).

(** A disk holding [/tmp/old.bin], one byte long; the working directory is
    [/tmp]. *)
Definition sample_disk : Os.FS :=
  Os.mkFS (<[ [str "tmp"; str "old.bin"] := Os.File [x61] ]>
             (<[ [str "tmp"] := Os.Dir ]> ∅))
          [str "tmp"].

Definition sample_world (p : Patch) : World := mkWorld p sample_disk [] [].

(** HTTP servers: every candidate refuses the connection; every candidate
    answers 404; every candidate answers 200 with [body]; the first request
    is refused and later ones are answered 200 with [body]. *)
Definition refuses : nat → pystr → result http_response :=
  λ _ _, Raises (URLError ReasonConnectionRefused).

Definition not_found : nat → pystr → result http_response :=
  λ _ _, Raises (HTTPError 404 "Not Found").

Definition serves (body : bytes) : nat → pystr → result http_response :=
  λ _ _, Returns (mkResponse 200 (Returns body)).

Definition refuses_then_serves (body : bytes) : nat → pystr → result http_response :=
  λ n _, match n with
         | O => Raises (URLError ReasonConnectionRefused)
         | S _ => Returns (mkResponse 200 (Returns body))
         end.

(** An environment where every socket call succeeds, the patch server sends
    [reply], the HTTP servers behave as [http] and writing a file does not
    fail. *)
Definition sample_env (reply : bytes) (http : nat → pystr → result http_response) : Env :=
  mkEnv 3 None None (Returns reply) None None None http None.

(** An environment for teardown: [shutdown] and [close] fail as given. *)
Definition teardown_env (shutdown close : option exn) : Env :=
  mkEnv 3 None None (Returns []) None shutdown close refuses None.


(** * Properties *)

(** ** UTF-16: decoding what the UTF-16LE encoder produced *)

Lemma byte_of_N_to_N n : Byte.to_N (Utf16.byte_of_N n) = n mod 256.
Proof.
  unfold Utf16.byte_of_N.
  destruct (Byte.of_N (n mod 256)) as [b|] eqn:Hb.
  - by apply Byte.to_of_N.
  - apply Byte.of_N_None_iff in Hb.
    pose proof (N.mod_upper_bound n 256). lia.
Qed.

Lemma unit_le_bytes u :
  u < 0x10000 →
  Byte.to_N (Utf16.byte_of_N u) + 256 * Byte.to_N (Utf16.byte_of_N (u / 256)) = u.
Proof.
  intros Hu. rewrite !byte_of_N_to_N.
  assert (u / 256 < 256) by (apply N.Div0.div_lt_upper_bound; lia).
  rewrite (N.mod_small (u / 256)) by done.
  pose proof (N.div_mod u 256 ltac:(done)) as Hu'.
  rewrite Hu' at 3. lia.
Qed.

Lemma code_units_encode us :
  Forall (λ u, u < 0x10000) us →
  Utf16.code_units true (us ≫= Utf16.bytes_of_unit_le) = Some us.
Proof.
  induction 1 as [|u us Hu _ IH]; [done|].
  rewrite bind_cons. cbn [Utf16.bytes_of_unit_le app Utf16.code_units].
  rewrite IH. simpl. by rewrite unit_le_bytes.
Qed.

Lemma units_of_bounded c :
  Utf16.scalar c → Forall (λ u, u < 0x10000) (Utf16.units_of c).
Proof.
  intros Hc. unfold Utf16.units_of.
  destruct (N.ltb_spec c 0x10000); [by repeat constructor|].
  assert ((c - 0x10000) / 0x400 < 0x400).
  { apply N.Div0.div_lt_upper_bound. destruct Hc; lia. }
  pose proof (N.mod_upper_bound (c - 0x10000) 0x400 ltac:(done)).
  set (q := (c - 0x10000) / 0x400) in *. set (m := (c - 0x10000) mod 0x400) in *.
  clearbody q m. repeat constructor; lia.
Qed.

Lemma units_of_str_bounded s :
  Forall Utf16.scalar s → Forall (λ u, u < 0x10000) (Utf16.units_of_str s).
Proof.
  induction 1 as [|c s Hc _ IH]; [constructor|].
  unfold Utf16.units_of_str. rewrite bind_cons. apply Forall_app. split; [|done].
  by apply units_of_bounded.
Qed.

Lemma join_surrogates_units s :
  Forall Utf16.scalar s → Utf16.join_surrogates (Utf16.units_of_str s) = Some s.
Proof.
  induction 1 as [|c s Hc _ IH]; [done|].
  unfold Utf16.units_of_str in *. rewrite bind_cons. unfold Utf16.units_of at 1.
  destruct (N.ltb_spec c 0x10000) as [Hlt|Hge].
  - cbn [app Utf16.join_surrogates].
    assert (Utf16.is_high_surrogate c = false) as ->.
    { unfold Utf16.is_high_surrogate.
      destruct (N.leb_spec 0xD800 c), (N.leb_spec c 0xDBFF); simpl; try done.
      destruct Hc; lia. }
    assert (Utf16.is_low_surrogate c = false) as ->.
    { unfold Utf16.is_low_surrogate.
      destruct (N.leb_spec 0xDC00 c), (N.leb_spec c 0xDFFF); simpl; try done.
      destruct Hc; lia. }
    by rewrite IH.
  - set (d := c - 0x10000).
    assert (d / 0x400 < 0x400).
    { apply N.Div0.div_lt_upper_bound. destruct Hc; lia. }
    pose proof (N.mod_upper_bound d 0x400 ltac:(done)).
    pose proof (N.div_mod d 0x400 ltac:(done)).
    assert (d = c - 0x10000) by done.
    set (q := d / 0x400) in *. set (m := d mod 0x400) in *. clearbody q m d.
    change ([0xD800 + q; 0xDC00 + m] ++ (s ≫= Utf16.units_of))
      with ((0xD800 + q) :: (0xDC00 + m) :: (s ≫= Utf16.units_of)).
    cbn [Utf16.join_surrogates].
    assert (Utf16.is_high_surrogate (0xD800 + q) = true) as ->.
    { unfold Utf16.is_high_surrogate. apply andb_true_iff. split; apply N.leb_le; lia. }
    assert (Utf16.is_low_surrogate (0xDC00 + m) = true) as ->.
    { unfold Utf16.is_low_surrogate. apply andb_true_iff. split; apply N.leb_le; lia. }
    rewrite IH. simpl. do 2 f_equal. lia.
Qed.

Lemma length_encode_le s :
  length (Utf16.encode_le s) = (length (Utf16.units_of_str s) * 2)%nat.
Proof.
  unfold Utf16.encode_le. induction (Utf16.units_of_str s) as [|u us IH]; [done|].
  rewrite bind_cons, length_app, IH. simpl. lia.
Qed.

Lemma decode_encode_le s :
  Forall Utf16.scalar s → no_bom s →
  Utf16.decode (Utf16.encode_le s) = Returns s.
Proof.
  intros Hs Hbom.
  assert (Hwhole :
    Utf16.code_units true (Utf16.encode_le s) ≫= Utf16.join_surrogates = Some s).
  { unfold Utf16.encode_le.
    rewrite code_units_encode by by apply units_of_str_bounded.
    simpl. by apply join_surrogates_units. }
  destruct s as [|c s]; [done|].
  assert (∃ u rest, Utf16.units_of_str (c :: s) = u :: rest
                    ∧ u < 0x10000 ∧ u ≠ 0xFEFF ∧ u ≠ 0xFFFE)
    as (u & rest & Heq & Hu & Hfeff & Hfffe).
  { apply Forall_cons in Hs as [Hc _]. destruct Hbom as [Hfeff Hfffe].
    unfold Utf16.units_of_str. rewrite bind_cons. unfold Utf16.units_of at 1.
    destruct (N.ltb_spec c 0x10000) as [Hlt|Hge].
    - by exists c, (s ≫= Utf16.units_of).
    - assert ((c - 0x10000) / 0x400 < 0x400).
      { apply N.Div0.div_lt_upper_bound. destruct Hc; lia. }
      set (q := (c - 0x10000) / 0x400) in *. clearbody q.
      eexists _, _. split; [done|]. lia. }
  unfold Utf16.decode, Utf16.encode_le in *. rewrite Heq in *.
  rewrite bind_cons in *. cbn [app Utf16.bytes_of_unit_le] in *.
  rewrite unit_le_bytes by done.
  destruct (N.eqb_spec u 0xFEFF); [done|]. destruct (N.eqb_spec u 0xFFFE); [done|].
  unfold Utf16.native_little_endian. by rewrite Hwhole.
Qed.

(** ** The handshake *)

Lemma update_patch_urls_run env w reply :
  connect_error env = None → send_error env = None →
  recv_result env = Returns reply →
  update_patch_urls env w = after_handshake env w (parse_handshake (take 1024 reply)).
Proof.
  intros Hconnect Hsend Hrecv.
  unfold update_patch_urls, with_socket, try_except, bind, get_self.
  unfold sock_connect, sock_send, sock_recv, bind, log_sock, may_fail, lift, ret.
  rewrite Hconnect, Hsend, Hrecv. cbn [self disk requests sock_log].
  unfold parse_handshake, parse_texts, after_handshake, handshake_ops.
  generalize (take 1024 reply). intros data.
  unfold BytesIO_read, raise.
  repeat match goal with
  | |- context [match unpack_B ?b with _ => _ end] => destruct (unpack_B b)
  | |- context [match unpack_33s ?b with _ => _ end] => destruct (unpack_33s b)
  | |- context [match Utf16.decode ?b with _ => _ end] => destruct (Utf16.decode b)
  | |- _ => progress cbn [self disk requests sock_log _master_server patch_url patch_cdn_url sock_fd set_patch_url set_patch_cdn_url set_sock_fd sock_detach set_self get_self bind ret raise log_sock]
  end; by rewrite <- ?app_assoc.
Qed.

Lemma length_handshake_response unknown blank33 url blank cdn :
  length blank33 = 33%nat →
  length (handshake_response unknown blank33 url blank cdn)
  = (37 + length (Utf16.units_of_str url) * 2
        + length (Utf16.units_of_str cdn) * 2)%nat.
Proof.
  intros H33. unfold handshake_response.
  rewrite !length_app, !length_encode_le, H33. cbn [length]. lia.
Qed.

Lemma BytesIO_read_one b data : BytesIO_read 1 (b :: data) = ([b], data).
Proof. done. Qed.

Lemma BytesIO_read_app n chunk data :
  n = length chunk → BytesIO_read n (chunk ++ data) = (chunk, data).
Proof.
  intros ->. unfold BytesIO_read. by rewrite take_app_length, drop_app_length.
Qed.

Lemma parse_handshake_header unknown blank33 len1 rest :
  length blank33 = 33%nat →
  parse_handshake (unknown :: blank33 ++ len1 :: rest)
  = parse_texts (Byte.to_N len1) rest.
Proof.
  intros H33. unfold parse_handshake.
  rewrite BytesIO_read_one. cbv beta iota. cbn [unpack_B].
  rewrite BytesIO_read_app by done. cbv beta iota.
  unfold unpack_33s. rewrite bool_decide_eq_true_2 by done.
  by rewrite BytesIO_read_one.
Qed.

Lemma length_field s :
  (length (Utf16.units_of_str s) ≤ 255)%nat →
  (N.to_nat (Byte.to_N (Utf16.byte_of_N (N.of_nat (length (Utf16.units_of_str s))))) * 2)%nat
  = length (Utf16.encode_le s).
Proof.
  intros Hlen. rewrite byte_of_N_to_N, N.mod_small by lia.
  by rewrite Nat2N.id, length_encode_le.
Qed.

Lemma parse_handshake_response unknown blank33 url blank cdn rest :
  length blank33 = 33%nat →
  Forall Utf16.scalar url → Forall Utf16.scalar cdn →
  (length (Utf16.units_of_str url) ≤ 255)%nat →
  (length (Utf16.units_of_str cdn) ≤ 255)%nat →
  no_bom url → no_bom cdn →
  parse_handshake (handshake_response unknown blank33 url blank cdn ++ rest)
  = Parsed url cdn.
Proof.
  intros H33 Hurl Hcdn Hlen1 Hlen2 Hbom1 Hbom2.
  unfold handshake_response. rewrite <- !app_assoc. cbn [app].
  rewrite parse_handshake_header by done.
  unfold parse_texts.
  rewrite BytesIO_read_app by by rewrite length_field.
  cbv beta iota. rewrite decode_encode_le by done.
  rewrite !BytesIO_read_one. cbv beta iota. cbn [unpack_B].
  rewrite <- (app_nil_r (Utf16.encode_le cdn ++ rest)), <- app_assoc.
  rewrite BytesIO_read_app by by rewrite length_field.
  cbv beta iota. by rewrite decode_encode_le.
Qed.

(** C5 (as the code has it): a reply in the documented layout, with the
    texts encoded in UTF-16LE, the layout within the first 1024 bytes and
    anything after it, is parsed back into the two texts, provided neither
    text starts with U+FEFF or U+FFFE: the ['utf-16'] codec takes those for a
    byte order mark. The call returns, and [sock_fd] holds the detached
    descriptor. *)
Theorem update_patch_urls_round_trip
    env w unknown blank33 blank url cdn padding :
  connect_error env = None → send_error env = None →
  length blank33 = 33%nat →
  Forall Utf16.scalar url → Forall Utf16.scalar cdn →
  (length (Utf16.units_of_str url) ≤ 255)%nat →
  (length (Utf16.units_of_str cdn) ≤ 255)%nat →
  (length (handshake_response unknown blank33 url blank cdn) ≤ 1024)%nat →
  no_bom url → no_bom cdn →
  recv_result env
    = Returns (handshake_response unknown blank33 url blank cdn ++ padding) →
  let run := update_patch_urls env w in
  run.2 = Returns tt
  ∧ patch_url (self run.1) = Some url
  ∧ patch_cdn_url (self run.1) = Some cdn
  ∧ sock_fd (self run.1) = Some (fileno env)
  ∧ _master_server (self run.1) = _master_server (self w).
Proof.
  intros Hconnect Hsend H33 Hurl Hcdn Hlen1 Hlen2 Hfit Hbom1 Hbom2 Hrecv run.
  subst run. rewrite (update_patch_urls_run env w _ Hconnect Hsend Hrecv).
  rewrite take_app_ge by done.
  by rewrite parse_handshake_response.
Qed.

(** ** The handshake on a reply that is too short *)

Lemma decode_raises bs e : Utf16.decode bs = Raises e → e = UnicodeDecodeError.
Proof.
  unfold Utf16.decode.
  destruct (match bs with [] => _ | _ => _ end) as [le payload].
  destruct (_ ≫= _); [done|]. by intros [= <-].
Qed.

Lemma BytesIO_read_nil n : BytesIO_read n [] = ([], []).
Proof. unfold BytesIO_read. by rewrite take_nil, drop_nil. Qed.

(** Fewer than 35 bytes: one of the three fixed fields is incomplete, and
    [struct.unpack] raises before anything is assigned. *)
Lemma parse_handshake_short data :
  (length data < 35)%nat → parse_handshake data = FailedBeforeUrl StructError.
Proof.
  intros Hlen. unfold parse_handshake.
  destruct data as [|unknown data]; [done|].
  rewrite BytesIO_read_one. cbv beta iota. cbn [unpack_B].
  unfold BytesIO_read at 1. cbv beta iota. unfold unpack_33s.
  cbn [length] in Hlen.
  destruct (decide (length data = 33%nat)) as [H33|H33].
  - rewrite take_ge, drop_ge by lia. rewrite bool_decide_eq_true_2 by done.
    by rewrite BytesIO_read_nil.
  - rewrite bool_decide_eq_false_2; [done|]. rewrite length_take. lia.
Qed.

(** From the first text on, with fewer than [2 * url_length + 2] bytes left:
    the reserved byte or the second length is missing. *)
Lemma parse_texts_short url_length data :
  (length data < N.to_nat url_length * 2 + 2)%nat →
  parse_texts url_length data = FailedBeforeUrl UnicodeDecodeError
  ∨ ∃ url, parse_texts url_length data = FailedAfterUrl url StructError.
Proof.
  intros Hlen. remember (parse_texts url_length data) as o eqn:Ho.
  unfold parse_texts in Ho. unfold BytesIO_read at 1 in Ho. cbv beta iota in Ho.
  destruct (Utf16.decode _) as [url|e] eqn:Hdecode.
  - right. exists url.
    assert (length (drop (N.to_nat url_length * 2) data) < 2)%nat as Hleft
      by (rewrite length_drop; lia).
    destruct (drop _ data) as [|blank [|b left]]; [done|done|].
    simpl in Hleft. lia.
  - left. by rewrite (decode_raises _ _ Hdecode) in Ho.
Qed.

Lemma parse_handshake_split (data : bytes) len1 :
  data !! 34%nat = Some len1 →
  ∃ unknown blank33,
    length blank33 = 33%nat
    ∧ data = unknown :: blank33 ++ len1 :: drop 35 data.
Proof.
  intros Hlen1. pose proof (lookup_lt_Some _ _ _ Hlen1) as Hlt.
  destruct data as [|unknown data]; [done|].
  exists unknown, (take 33 data). split.
  - rewrite length_take. simpl in Hlt. lia.
  - f_equal. change (data !! 33%nat = Some len1) in Hlen1.
    change (drop 35 (unknown :: data)) with (drop 34 data).
    by rewrite (take_drop_middle _ _ _ Hlen1).
Qed.

(** C1 (as the code has it): a reply of fewer than 35 bytes makes
    [update_patch_urls] raise [struct.error] with no attribute assigned; a
    reply of fewer than [37 + 2 * len1] bytes makes it raise [struct.error]
    or [UnicodeDecodeError] with [patch_cdn_url] and [sock_fd] not assigned;
    and when it returns, [patch_url], [patch_cdn_url] and [sock_fd] have all
    been assigned by that call. *)
Theorem update_patch_urls_short_reply env w reply :
  connect_error env = None → send_error env = None →
  recv_result env = Returns reply →
  let data := take 1024 reply in
  let w' := (update_patch_urls env w).1 in
  let r := (update_patch_urls env w).2 in
  ((length data < 35)%nat → r = Raises StructError ∧ self w' = self w)
  ∧ (∀ len1, data !! 34%nat = Some len1 →
       (length data < 37 + N.to_nat (Byte.to_N len1) * 2)%nat →
       (r = Raises StructError ∨ r = Raises UnicodeDecodeError)
       ∧ patch_cdn_url (self w') = patch_cdn_url (self w)
       ∧ sock_fd (self w') = sock_fd (self w))
  ∧ (r = Returns tt →
     ∃ url cdn,
       self w' = mkPatch (_master_server (self w)) (Some url) (Some cdn)
                   (Some (fileno env))).
Proof.
  intros Hconnect Hsend Hrecv data w' r. subst w' r.
  rewrite (update_patch_urls_run env w _ Hconnect Hsend Hrecv). fold data.
  split; [|split].
  - intros Hshort. by rewrite parse_handshake_short.
  - intros len1 Hlen1 Hshort.
    destruct (parse_handshake_split _ _ Hlen1) as (unknown & blank33 & H33 & Hdata).
    rewrite Hdata, parse_handshake_header by done.
    destruct (parse_texts_short (Byte.to_N len1) (drop 35 data)) as [->|[url ->]].
    { rewrite length_drop. lia. }
    + split; [by right|done].
    + split; [by left|done].
  - destruct (parse_handshake data) as [e|url e|url cdn]; [done|done|].
    intros _. by exists url, cdn.
Qed.

(** ** [download_raw]: the candidate loop *)

Lemma with_requests_app w us vs :
  with_requests (with_requests w us) vs = with_requests w (us ++ vs).
Proof. unfold with_requests; simpl. by rewrite app_assoc. Qed.

Lemma download_raw_try_run env url w :
  download_raw_try env url w
  = (with_requests w [url], attempt env (length (requests w)) url).
Proof.
  unfold download_raw_try, attempt, bind, request_urlopen, with_requests.
  destruct (urlopen env _ url) as [robj|e]; [|done].
  by destruct (negb _).
Qed.

Lemma download_raw_for_cons env len_hosts file_path index host remaining w :
  download_raw_for env len_hosts file_path ((index, host) :: remaining) w
  = match attempt env (length (requests w)) (host ++ file_path) with
    | Returns body => (with_requests w [host ++ file_path], Returns (Some body))
    | Raises e =>
        if falls_back len_hosts index e
        then download_raw_for env len_hosts file_path remaining
               (with_requests w [host ++ file_path])
        else (with_requests w [host ++ file_path], Raises e)
    end.
Proof.
  simpl. unfold bind, try_except. rewrite download_raw_try_run.
  destruct (attempt _ _ _) as [body|e]; [done|].
  unfold falls_back.
  destruct (is_URLError e); [|done].
  destruct (is_ConnectionRefusedError _); [|done].
  by destruct (index <? len_hosts)%nat.
Qed.

Lemma download_raw_run env file_path w cdn url :
  patch_cdn_url (self w) = Some cdn →
  patch_url (self w) = Some url →
  download_raw env file_path w
  = download_raw_for env 2 file_path [(0%nat, cdn); (1%nat, url)] w.
Proof.
  intros Hcdn Hurl. unfold download_raw, bind, getattr. by rewrite Hcdn, Hurl.
Qed.

(** In a two-element list every index is below the length: the index test of
    the handler never stops the loop. *)
Lemma falls_back_refused index :
  (index < 2)%nat → falls_back 2 index (URLError ReasonConnectionRefused) = true.
Proof. intros H. unfold falls_back; simpl. by apply Nat.ltb_lt. Qed.

(** A failure that is not a refused connection is raised at once, whichever
    candidate it comes from. *)
Lemma download_raw_for_surfaces env len_hosts file_path index host remaining w e :
  attempt env (length (requests w)) (host ++ file_path) = Raises e →
  is_URLError e && is_ConnectionRefusedError (reason_of e) = false →
  download_raw_for env len_hosts file_path ((index, host) :: remaining) w
  = (with_requests w [host ++ file_path], Raises e).
Proof.
  intros Ha Hne. rewrite download_raw_for_cons, Ha.
  unfold falls_back. by rewrite Hne.
Qed.

(** C2 (the code departs from the claim): when the CDN candidate and then the
    master candidate both refuse the connection, [download_raw] raises
    nothing; it requests both urls and returns [None]. *)
Theorem download_raw_refused_by_both env file_path w cdn url :
  patch_cdn_url (self w) = Some cdn →
  patch_url (self w) = Some url →
  urlopen env (length (requests w)) (cdn ++ file_path)
    = Raises (URLError ReasonConnectionRefused) →
  urlopen env (S (length (requests w))) (url ++ file_path)
    = Raises (URLError ReasonConnectionRefused) →
  download_raw env file_path w
  = (with_requests w [cdn ++ file_path; url ++ file_path], Returns None).
Proof.
  intros Hcdn Hurl H0 H1.
  rewrite (download_raw_run _ _ _ _ _ Hcdn Hurl).
  rewrite download_raw_for_cons. unfold attempt at 1. rewrite H0.
  rewrite falls_back_refused by lia.
  rewrite download_raw_for_cons. unfold attempt at 1. simpl requests.
  rewrite length_app, Nat.add_1_r, H1.
  rewrite falls_back_refused by lia.
  simpl. unfold ret. by rewrite with_requests_app.
Qed.

(** C6: a candidate that answers 200 ends the loop with its body. If the CDN
    candidate answers 200, only that one url is requested; if it refuses the
    connection and the master candidate answers 200, the master's body is
    returned and nothing is raised. *)
Theorem download_raw_returns_body_of_200 env file_path w cdn url body :
  patch_cdn_url (self w) = Some cdn →
  patch_url (self w) = Some url →
  (urlopen env (length (requests w)) (cdn ++ file_path)
     = Returns (mkResponse 200 (Returns body)) →
   download_raw env file_path w
   = (with_requests w [cdn ++ file_path], Returns (Some body)))
  ∧
  (urlopen env (length (requests w)) (cdn ++ file_path)
     = Raises (URLError ReasonConnectionRefused) →
   urlopen env (S (length (requests w))) (url ++ file_path)
     = Returns (mkResponse 200 (Returns body)) →
   download_raw env file_path w
   = (with_requests w [cdn ++ file_path; url ++ file_path], Returns (Some body))).
Proof.
  intros Hcdn Hurl.
  rewrite (download_raw_run _ _ _ _ _ Hcdn Hurl). split.
  - intros H0. rewrite download_raw_for_cons. unfold attempt. by rewrite H0.
  - intros H0 H1.
    rewrite download_raw_for_cons. unfold attempt at 1. rewrite H0.
    rewrite falls_back_refused by lia.
    rewrite download_raw_for_cons. unfold attempt. simpl requests.
    rewrite length_app, Nat.add_1_r, H1. simpl.
    by rewrite with_requests_app.
Qed.

(** What the code keeps of C2: a failure of the CDN candidate other than a
    refused connection (a status that is not 200, an [HTTPError], a
    [URLError] with another reason, any other exception) is raised at once,
    and the master candidate is never requested. *)
Lemma download_raw_surfaces_cdn_failure env file_path w cdn url e :
  patch_cdn_url (self w) = Some cdn →
  patch_url (self w) = Some url →
  attempt env (length (requests w)) (cdn ++ file_path) = Raises e →
  is_URLError e && is_ConnectionRefusedError (reason_of e) = false →
  download_raw env file_path w = (with_requests w [cdn ++ file_path], Raises e).
Proof.
  intros Hcdn Hurl Ha Hne. rewrite (download_raw_run _ _ _ _ _ Hcdn Hurl).
  by apply download_raw_for_surfaces.
Qed.

(** Likewise for the master candidate, reached after the CDN one refused. *)
Lemma download_raw_surfaces_master_failure env file_path w cdn url e :
  patch_cdn_url (self w) = Some cdn →
  patch_url (self w) = Some url →
  urlopen env (length (requests w)) (cdn ++ file_path)
    = Raises (URLError ReasonConnectionRefused) →
  attempt env (S (length (requests w))) (url ++ file_path) = Raises e →
  is_URLError e && is_ConnectionRefusedError (reason_of e) = false →
  download_raw env file_path w
  = (with_requests w [cdn ++ file_path; url ++ file_path], Raises e).
Proof.
  intros Hcdn Hurl H0 Ha Hne. rewrite (download_raw_run _ _ _ _ _ Hcdn Hurl).
  rewrite download_raw_for_cons. unfold attempt at 1. rewrite H0.
  rewrite falls_back_refused by lia.
  rewrite (download_raw_for_surfaces _ _ _ _ _ _ _ e).
  - by rewrite with_requests_app.
  - simpl requests. by rewrite length_app, Nat.add_1_r.
  - done.
Qed.

(** ** What a computation leaves alone *)

Section Keeps.
Context {B : Type} (f : World → B).

Lemma keeps_ret {A} (a : A) : keeps f (ret a).
Proof. done. Qed.

Lemma keeps_raise {A} e : keeps f (raise (A:=A) e).
Proof. done. Qed.

Lemma keeps_lift {A} (r : result A) : keeps f (lift r).
Proof. done. Qed.

Lemma keeps_getattr {A} name (field : Patch → option A) : keeps f (getattr name field).
Proof. intros w. unfold getattr. by destruct (field (self w)). Qed.

Lemma keeps_bind {A C} (m : Py A) (k : A → Py C) :
  keeps f m → (∀ a, keeps f (k a)) → keeps f (bind m k).
Proof.
  intros Hm Hk w. unfold bind. specialize (Hm w).
  destruct (m w) as [w' [a|e]]; simpl in *; [|done].
  by rewrite Hk.
Qed.

Lemma keeps_try_except {A} (m : Py A) catches handler :
  keeps f m → (∀ e, keeps f (handler e)) → keeps f (try_except m catches handler).
Proof.
  intros Hm Hh w. unfold try_except. specialize (Hm w).
  destruct (m w) as [w' [a|e]]; simpl in *; [done|].
  destruct (catches e); [|done]. by rewrite Hh.
Qed.

End Keeps.

Lemma on_disk_keeps_self {A} (c : Os.FS → Os.FS * result A) : keeps self (on_disk c).
Proof. intros w. unfold on_disk. by destruct (c (disk w)). Qed.

Lemma on_disk_keeps_sock_log {A} (c : Os.FS → Os.FS * result A) :
  keeps sock_log (on_disk c).
Proof. intros w. unfold on_disk. by destruct (c (disk w)). Qed.

Lemma on_disk_keeps_requests {A} (c : Os.FS → Os.FS * result A) :
  keeps requests (on_disk c).
Proof. intros w. unfold on_disk. by destruct (c (disk w)). Qed.

Lemma self_off_network : off_network self.
Proof. done. Qed.
Lemma sock_log_off_network : off_network sock_log.
Proof. done. Qed.
Lemma disk_off_network : off_network disk.
Proof. done. Qed.

Lemma download_raw_for_keeps {B} (f : World → B) env len_hosts file_path remaining :
  off_network f → keeps f (download_raw_for env len_hosts file_path remaining).
Proof.
  intros Hf. induction remaining as [|[index host] remaining IH]; intros w; [done|].
  rewrite download_raw_for_cons.
  destruct (attempt _ _ _) as [body|e]; simpl; [apply Hf|].
  destruct (falls_back _ _ _); simpl; [|apply Hf].
  rewrite IH. apply Hf.
Qed.

Lemma download_raw_keeps {B} (f : World → B) env file_path :
  off_network f → keeps f (download_raw env file_path).
Proof.
  intros Hf. unfold download_raw.
  apply keeps_bind; [apply keeps_getattr|]; intros cdn.
  apply keeps_bind; [apply keeps_getattr|]; intros url.
  by apply download_raw_for_keeps.
Qed.

Lemma download_keeps {B} (f : World → B) env file_path dst_dir dst_file :
  off_network f →
  (∀ A (c : Os.FS → Os.FS * result A), keeps f (on_disk c)) →
  keeps f (download env file_path dst_dir dst_file).
Proof.
  intros Hf Hd. unfold download.
  apply keeps_bind; [apply keeps_lift|]; intros write_path.
  apply keeps_bind; [apply Hd|]; intros _.
  apply keeps_bind; [apply Hd|]; intros fobj.
  apply keeps_bind; [by apply download_raw_keeps|]; intros data.
  apply Hd.
Qed.

(** C9: neither download method changes an attribute of the [Patch] object
    ([patch_url], [patch_cdn_url], [sock_fd], [_master_server]) or performs
    an operation on a socket. *)
Theorem downloads_leave_session_alone env file_path dst_dir dst_file w :
  let w1 := (download_raw env file_path w).1 in
  let w2 := (download env file_path dst_dir dst_file w).1 in
  (self w1 = self w ∧ sock_log w1 = sock_log w)
  ∧ (self w2 = self w ∧ sock_log w2 = sock_log w).
Proof.
  simpl. repeat split.
  - by apply download_raw_keeps.
  - by apply download_raw_keeps.
  - apply download_keeps; [done|]. intros; apply on_disk_keeps_self.
  - apply download_keeps; [done|]. intros; apply on_disk_keeps_sock_log.
Qed.

(** ** Teardown *)

(** C8: in [__del__] an [OSError] from [shutdown] is swallowed and [close] is
    still called; an exception from [close] is raised to the caller. *)
Theorem del_swallows_shutdown_surfaces_close env w fd :
  sock_fd (self w) = Some fd →
  fromfd_error env = None →
  (∀ e, shutdown_error env = Some e → is_OSError e = true →
        close_error env = None →
        __del__ env w
        = (with_sock_ops w [(fd, SockShutdown); (fd, SockClose)], Returns tt))
  ∧ (∀ e, close_error env = Some e →
          (∀ e', shutdown_error env = Some e' → is_OSError e' = true) →
          __del__ env w
          = (with_sock_ops w [(fd, SockShutdown); (fd, SockClose)], Raises e)).
Proof.
  intros Hfd Hfrom.
  assert (Hshape : ∀ r,
    (∀ e', shutdown_error env = Some e' → is_OSError e' = true) →
    match close_error env with Some e => Raises e | None => Returns tt end = r →
    __del__ env w = (with_sock_ops w [(fd, SockShutdown); (fd, SockClose)], r)).
  { intros r Hsh Hcl.
    unfold __del__, bind, getattr, socket_fd_open, bind. rewrite Hfd, Hfrom. simpl.
    unfold try_except, sock_shutdown, sock_close, bind, log_sock, with_sock_ops; simpl.
    destruct (shutdown_error env) as [e'|]; simpl.
    - rewrite (Hsh e' eq_refl). simpl. rewrite <- app_assoc. simpl.
      destruct (close_error env) as [e|]; simpl in *; subst r; [|done].
      by destruct (is_OSError e).
    - rewrite <- app_assoc. simpl.
      destruct (close_error env) as [e|]; simpl in *; subst r; [|done].
      by destruct (is_OSError e). }
  split.
  - intros e Hsh Hos Hcl. apply Hshape; [|by rewrite Hcl].
    intros e' He'. congruence.
  - intros e Hcl Hsh. apply Hshape; [done|by rewrite Hcl].
Qed.

(** ** [download]: the destination arguments *)


(** ** [download]: a bare file name as [dst_file] *)

Lemma rpartition_absent c s : c ∉ s → PyStr.rpartition c s = (None, s).
Proof.
  induction s as [|x s IH]; [done|]. intros Hnotin.
  apply not_elem_of_cons in Hnotin as [Hne Hs]. simpl. rewrite (IH Hs).
  destruct (N.eqb_spec x c); [congruence|done].
Qed.

Lemma path_split_bare name : slash ∉ name → Os.path_split name = ([], name).
Proof. intros H. unfold Os.path_split. by rewrite rpartition_absent. Qed.

(** [os.makedirs('', exist_ok=True)] fails: [mkdir('')] raises
    [FileNotFoundError] and [''] is not a directory. *)
Lemma makedirs_empty fs : Os.makedirs [] fs = (fs, Raises FileNotFoundError).
Proof. done. Qed.

(** C10: with [dst_dir] unset and [dst_file] a non-empty name without a
    slash, [download] raises [FileNotFoundError] out of [os.makedirs('')];
    no request has been made and the file system is as before. *)
Theorem download_bare_dst_file env file_path dst_dir name w :
  truthy dst_dir = false → name ≠ [] → slash ∉ name →
  download env file_path dst_dir (Some name) w = (w, Raises FileNotFoundError).
Proof.
  intros Hd Hne Hbare.
  unfold download, download_write_path, bind, lift. rewrite Hd.
  destruct name as [|c name]; [done|]. simpl truthy. cbv iota. simpl default.
  rewrite path_split_bare by done. simpl fst.
  unfold on_disk. rewrite makedirs_empty. by destruct w.
Qed.

(** ** [os.makedirs]: the fuel is enough *)

Lemma rpartition_inv c s :
  match PyStr.rpartition c s with
  | (Some before, after) => s = before ++ c :: after
  | (None, after) => s = after
  end.
Proof.
  induction s as [|x s IH]; [done|]. simpl.
  destruct (PyStr.rpartition c s) as [[before|] after].
  - by rewrite IH.
  - destruct (N.eqb_spec x c) as [->|_]; by rewrite IH.
Qed.

Lemma length_lstrip c s : (length (PyStr.lstrip c s) ≤ length s)%nat.
Proof.
  induction s as [|x s IH]; [done|]. simpl. destruct (x =? c); simpl; lia.
Qed.

Lemma length_rstrip c s : (length (PyStr.rstrip c s) ≤ length s)%nat.
Proof.
  unfold PyStr.rstrip. rewrite length_reverse.
  pose proof (length_lstrip c (reverse s)) as H. by rewrite length_reverse in H.
Qed.

Lemma path_split_length p :
  (length (Os.path_split p).1 + length (Os.path_split p).2 ≤ length p)%nat.
Proof.
  unfold Os.path_split. pose proof (rpartition_inv slash p) as Hp.
  destruct (PyStr.rpartition slash p) as [[before|] after]; subst p.
  - destruct (_ && _); cbn [fst snd].
    + pose proof (length_rstrip slash (before ++ [slash])) as H.
      rewrite !length_app in *. cbn [length] in *. lia.
    + rewrite !length_app. cbn [length]. lia.
  - simpl. lia.
Qed.

(** The depth of the recursion never exceeds the length of the name: with
    more fuel than that, the amount does not matter, and the result is never
    the out-of-fuel one for want of fuel. *)
Lemma makedirs_rec_fuel n m name fs :
  (length name < n)%nat → (length name < m)%nat →
  Os.makedirs_rec n name fs = Os.makedirs_rec m name fs.
Proof.
  revert m name fs. induction n as [|n IH]; intros m name fs Hn Hm; [lia|].
  destruct m as [|m]; [lia|]. cbn [Os.makedirs_rec].
  pose proof (path_split_length name) as Hsplit.
  destruct (Os.path_split name) as [head tail]. cbn [fst snd] in Hsplit.
  destruct tail as [|c tail].
  - pose proof (path_split_length head) as Hsplit'.
    destruct (Os.path_split head) as [h t]. cbn [fst snd length] in *.
    destruct (bool_decide (h ≠ [])); [|done].
    destruct t as [|c t]; [done|].
    destruct (negb (Os.exists_ fs h)); [|done].
    cbn [andb bool_decide length] in *. by rewrite (IH m h fs) by lia.
  - destruct (bool_decide (head ≠ [])); [|done].
    destruct (negb (Os.exists_ fs head)); [|done].
    cbn [andb bool_decide length] in *. by rewrite (IH m head fs) by lia.
Qed.

(** ** [download]: what a failed fetch leaves on disk *)

(** Putting a regular file where there was no directory does not change
    where a walk through directories leads. *)
Lemma node_at_insert_file t p b q :
  Os.node_at t p ≠ Some Os.Dir →
  Os.node_at t q = Some Os.Dir →
  Os.node_at (<[p := Os.File b]> t) q = Some Os.Dir.
Proof.
  intros Hp Hq. destruct q as [|c q]; [done|]. simpl in *.
  rewrite lookup_insert_ne; [done|]. intros ->. by simpl in Hp.
Qed.

Lemma walk_insert_file t p b cur cs parent :
  Os.node_at t p ≠ Some Os.Dir →
  Os.walk t cur cs = Returns parent →
  Os.walk (<[p := Os.File b]> t) cur cs = Returns parent.
Proof.
  intros Hp. revert cur. induction cs as [|c cs IH]; intros cur Hw; [done|].
  simpl in *.
  destruct (Os.node_at t (Os.enter cur c)) as [[|b']|] eqn:Hn; [|done|done].
  rewrite (node_at_insert_file _ _ _ _ Hp Hn). by apply IH.
Qed.

Lemma node_at_insert_eq t p b :
  Os.node_at t p ≠ Some Os.Dir →
  Os.node_at (<[p := Os.File b]> t) p = Some (Os.File b).
Proof.
  intros Hp. destruct p as [|c p]; [done|]. simpl. by rewrite lookup_insert_eq.
Qed.

(** Once the node a pathname leads to (a regular file, or nothing yet) holds
    an empty regular file, the pathname resolves to that file. *)
Lemma resolve_from_insert_file t start name p :
  PyStr.endswith slash name = false →
  ((∃ b, Os.resolve_from t start name = Returns (Os.Existing p (Os.File b)))
   ∨ Os.resolve_from t start name = Returns (Os.Missing p)) →
  Os.resolve_from (<[p := Os.File []]> t) start name
  = Returns (Os.Existing p (Os.File [])).
Proof.
  intros Hend. unfold Os.resolve_from. set (cs := filter _ _).
  destruct (Os.node_at t start) as [[|b0]|] eqn:Hstart;
    [|by intros [[? ?]|?]|by intros [[? ?]|?]].
  destruct (Os.walk t start (removelast cs)) as [parent|e] eqn:Hwalk;
    [|by intros [[? ?]|?]].
  destruct (last cs) as [c|]; [|by intros [[? ?]|?]].
  unfold Os.resolve_last. rewrite Hend. intros Hres.
  assert (Os.node_at t p ≠ Some Os.Dir ∧ p = Os.enter parent c) as [Hp ->].
  { destruct (Os.node_at t (Os.enter parent c)) as [[|b]|] eqn:Hn.
    - by destruct Hres as [[? ?]|?].
    - destruct Hres as [[? [= <- _]]|?]; [|done]. split; [congruence|done].
    - destruct (decide _); [by destruct Hres as [[? ?]|?]|].
      destruct Hres as [[? ?]|[= <-]]; [done|]. split; [congruence|done]. }
  rewrite (node_at_insert_file _ _ _ _ Hp Hstart).
  rewrite (walk_insert_file _ _ _ _ _ _ Hp Hwalk).
  by rewrite node_at_insert_eq.
Qed.

(** After [open(name, 'wb')] has succeeded, [name] is an empty regular file,
    whatever it was before. *)
Lemma open_wb_resolves name fs fs' f :
  Os.open_wb name fs = (fs', Returns f) →
  Os.resolve fs' name = Returns (Os.Existing f (Os.File [])).
Proof.
  unfold Os.open_wb, Os.resolve. destruct name as [|x name]; [done|].
  set (start := if PyStr.startswith _ _ then _ else _).
  destruct (Os.resolve_from (Os.tree fs) start (x :: name))
    as [[p [|b]|p]|e] eqn:Hres; [done| | |done].
  - destruct (PyStr.endswith slash (x :: name)) eqn:Hend.
    { unfold Os.resolve_from in Hres.
      destruct (Os.node_at _ start) as [[|?]|]; [|done|done].
      destruct (Os.walk _ _ _); [|done]. destruct (last _); [|done].
      unfold Os.resolve_last in Hres. rewrite Hend in Hres.
      destruct (Os.node_at _ _) as [[|?]|]; [done|done|by destruct (decide _)]. }
    intros [= <- <-]. apply resolve_from_insert_file; [done|]. left. eauto.
  - destruct (PyStr.endswith slash (x :: name)) eqn:Hend; [done|].
    intros [= <- <-]. apply resolve_from_insert_file; [done|]. by right.
Qed.

(** C4 (as the code has it): when the destination has been opened and the
    fetch then raises, [download] raises the same exception and the
    destination is left as an empty regular file: [open] created it, or
    truncated it, before the fetch began, and nothing is written after. *)
Theorem download_failed_fetch_leaves_empty_file
    env file_path dst_dir dst_file w write_path w1 w2 f w3 e :
  download_write_path file_path dst_dir dst_file = Returns write_path →
  on_disk (Os.makedirs (Os.path_split write_path).1) w = (w1, Returns tt) →
  on_disk (Os.open_wb write_path) w1 = (w2, Returns f) →
  download_raw env file_path w2 = (w3, Raises e) →
  download env file_path dst_dir dst_file w = (w3, Raises e)
  ∧ Os.resolve (disk w3) write_path = Returns (Os.Existing f (Os.File [])).
Proof.
  intros Hpath Hmk Hopen Hraw. split.
  - unfold download, bind, lift. by rewrite Hpath, Hmk, Hopen, Hraw.
  - pose proof (download_raw_keeps disk env file_path disk_off_network w2) as Hdisk.
    rewrite Hraw in Hdisk. simpl in Hdisk. rewrite Hdisk.
    unfold on_disk in Hopen.
    destruct (Os.open_wb write_path (disk w1)) as [fs2 r] eqn:Ho.
    injection Hopen as <- ->. simpl. by apply open_wb_resolves in Ho.
Qed.

(** ** [download]: writing to the destination *)

Lemma on_disk_run {A} (c : Os.FS → Os.FS * result A) w :
  on_disk c w
  = (mkWorld (self w) (c (disk w)).1 (requests w) (sock_log w), (c (disk w)).2).
Proof. unfold on_disk. by destruct (c (disk w)). Qed.

(** Writing to the regular file a pathname resolves to leaves the pathname
    resolving to that file, with the new content. *)
Lemma resolve_write name fs f b0 b :
  Os.resolve fs name = Returns (Os.Existing f (Os.File b0)) →
  Os.resolve (Os.mkFS (<[f := Os.File b]> (Os.tree fs)) (Os.cwd fs)) name
  = Returns (Os.Existing f (Os.File b)).
Proof.
  unfold Os.resolve. destruct name as [|x name]; [done|]. cbn [Os.tree Os.cwd].
  set (start := if PyStr.startswith _ _ then _ else _).
  unfold Os.resolve_from. set (cs := filter _ _).
  destruct (Os.node_at (Os.tree fs) start) as [[|?]|] eqn:Hstart; [|done|done].
  destruct (Os.walk (Os.tree fs) start (removelast cs)) as [parent|e] eqn:Hwalk;
    [|done].
  destruct (last cs) as [c|]; [|done].
  unfold Os.resolve_last.
  destruct (Os.node_at (Os.tree fs) (Os.enter parent c)) as [[|b1]|] eqn:Hn;
    [done| |by destruct (decide _)].
  destruct (PyStr.endswith slash (x :: name)); [done|].
  intros [= <- <-].
  assert (Os.node_at (Os.tree fs) (Os.enter parent c) ≠ Some Os.Dir) as Hp
    by congruence.
  rewrite (node_at_insert_file _ _ _ _ Hp Hstart).
  rewrite (walk_insert_file _ _ _ _ _ _ Hp Hwalk).
  by rewrite node_at_insert_eq.
Qed.


(** From the opening of the destination on: the fetch, then the write. *)
Lemma download_after_open env file_path dst_dir dst_file w write_path w1 w2 f w3 data :
  download_write_path file_path dst_dir dst_file = Returns write_path →
  on_disk (Os.makedirs (Os.path_split write_path).1) w = (w1, Returns tt) →
  on_disk (Os.open_wb write_path) w1 = (w2, Returns f) →
  download_raw env file_path w2 = (w3, Returns data) →
  download env file_path dst_dir dst_file w
  = on_disk (Os.write (write_error env) f data) w3
  ∧ Os.resolve (disk w3) write_path = Returns (Os.Existing f (Os.File [])).
Proof.
  intros Hpath Hmk Hopen Hraw. split.
  - unfold download, bind, lift. by rewrite Hpath, Hmk, Hopen, Hraw.
  - pose proof (download_raw_keeps disk env file_path disk_off_network w2) as Hdisk.
    rewrite Hraw in Hdisk. simpl in Hdisk. rewrite Hdisk.
    unfold on_disk in Hopen.
    destruct (Os.open_wb write_path (disk w1)) as [fs2 r] eqn:Ho.
    injection Hopen as <- ->. simpl. by apply open_wb_resolves in Ho.
Qed.


(** ** [download]: both destinations given *)


(** ** [version] *)

Lemma lstrip_keeps c s : PyStr.startswith c s = false → PyStr.lstrip c s = s.
Proof. destruct s as [|x s]; [done|]. simpl. by intros ->. Qed.

(** Stripping leading separators from [prefix/rest] leaves [rest] itself or
    something that ends in [/rest]. *)
Lemma lstrip_prefix c prefix rest :
  PyStr.startswith c rest = false →
  ∃ q, PyStr.lstrip c (prefix ++ c :: rest) = q ++ rest
       ∧ (q = [] ∨ ∃ q', q = q' ++ [c]).
Proof.
  intros Hrest. induction prefix as [|x prefix IH]; simpl.
  - rewrite N.eqb_refl, lstrip_keeps by done. exists []. by split; [|left].
  - destruct (x =? c); [done|].
    exists (x :: prefix ++ [c]). split; [|right; by exists (x :: prefix)].
    simpl. by rewrite <- app_assoc.
Qed.

Lemma rstrip_one_trailing c q ver :
  ver ≠ [] → c ∉ ver → PyStr.rstrip c (q ++ ver ++ [c]) = q ++ ver.
Proof.
  intros Hne Hnotin. unfold PyStr.rstrip.
  rewrite app_assoc, reverse_snoc. simpl. rewrite N.eqb_refl.
  rewrite lstrip_keeps; [by rewrite reverse_involutive|].
  rewrite reverse_app.
  destruct (reverse ver) as [|x rv] eqn:Hrv.
  { apply (f_equal reverse) in Hrv. by rewrite reverse_involutive in Hrv. }
  simpl. apply N.eqb_neq. intros ->. apply Hnotin.
  rewrite <- (reverse_involutive ver), Hrv, reverse_cons. set_solver.
Qed.

Lemma rpartition_last_sep c before after :
  c ∉ after → PyStr.rpartition c (before ++ c :: after) = (Some before, after).
Proof.
  intros Hnotin. induction before as [|x before IH]; simpl.
  - by rewrite rpartition_absent, N.eqb_refl.
  - by rewrite IH.
Qed.

(** C7: for a [patch_url] of the form [prefix/version/] with a non-empty,
    slash-free [version], the [version] property returns that segment; the
    world is not touched. *)
Theorem version_of_wellformed_url w prefix ver :
  ver ≠ [] → slash ∉ ver →
  patch_url (self w) = Some (prefix ++ [slash] ++ ver ++ [slash]) →
  version w = (w, Returns ver).
Proof.
  intros Hne Hnotin Hurl. unfold version, bind, getattr, lift. rewrite Hurl.
  f_equal. unfold PyStr.strip.
  change ([slash] ++ ver ++ [slash]) with (slash :: (ver ++ [slash])).
  destruct (lstrip_prefix slash prefix (ver ++ [slash])) as (q & -> & Hq).
  { destruct ver as [|x ver]; [done|]. simpl. apply N.eqb_neq. intros ->.
    apply Hnotin. set_solver. }
  rewrite rstrip_one_trailing by done.
  unfold PyStr.rsplit1. destruct Hq as [->|[q' ->]].
  - by rewrite rpartition_absent.
  - rewrite <- app_assoc. change ([slash] ++ ver) with (slash :: ver).
    by rewrite rpartition_last_sep.
Qed.

(** * The properties at work on sample inputs *)

(** ** Handshake *)

(** A reply cut right after the second length byte, which announces one code
    unit: 37 bytes where the layout asks for 39. The handshake succeeds,
    with an empty [patch_cdn_url]. And a reply cut right after a complete
    first text: the handshake fails, but [patch_url] has been assigned and
    [patch_cdn_url] has not. *)
Lemma update_patch_urls_truncated_replies :
  let cut_in_second_text := replicate 34 x00 ++ [x00; x00; x01] in
  let cut_after_first_text := replicate 34 x00 ++ [x01; x61; x00] in
  let run1 := update_patch_urls (sample_env cut_in_second_text refuses)
                (sample_world fresh) in
  let run2 := update_patch_urls (sample_env cut_after_first_text refuses)
                (sample_world fresh) in
  ((length cut_in_second_text < 36 + 0 * 2 + 1 * 2)%nat
   ∧ run1.2 = Returns tt
   ∧ patch_url (self run1.1) = Some []
   ∧ patch_cdn_url (self run1.1) = Some [])
  ∧ ((length cut_after_first_text < 36 + 1 * 2)%nat
     ∧ run2.2 = Raises StructError
     ∧ patch_url (self run2.1) = Some (str "a")
     ∧ patch_cdn_url (self run2.1) = None
     ∧ sock_fd (self run2.1) = None).
Proof. vm_compute. repeat split; lia. Qed.

Lemma update_patch_urls_short_reply_witness :
  let env1 := sample_env [x00; x00] refuses in
  let env2 := sample_env (replicate 34 x00 ++ [x01; x61; x00]) refuses in
  let env3 := sample_env (replicate 34 x00 ++ [x01; x61; x00; x00; x00]) refuses in
  let w := sample_world fresh in
  ((update_patch_urls env1 w).2 = Raises StructError
   ∧ self (update_patch_urls env1 w).1 = self w)
  ∧ (((update_patch_urls env2 w).2 = Raises StructError
      ∨ (update_patch_urls env2 w).2 = Raises UnicodeDecodeError)
     ∧ patch_cdn_url (self (update_patch_urls env2 w).1) = patch_cdn_url (self w)
     ∧ sock_fd (self (update_patch_urls env2 w).1) = sock_fd (self w))
  ∧ (∃ url cdn,
       self (update_patch_urls env3 w).1
       = mkPatch (_master_server (self w)) (Some url) (Some cdn) (Some (fileno env3))).
Proof.
  intros env1 env2 env3 w. split; [|split].
  - apply (proj1 (update_patch_urls_short_reply env1 w [x00; x00]
                    eq_refl eq_refl eq_refl)).
    simpl. lia.
  - apply (proj1 (proj2 (update_patch_urls_short_reply env2 w
                           (replicate 34 x00 ++ [x01; x61; x00])
                           eq_refl eq_refl eq_refl)) x01).
    + reflexivity.
    + vm_compute. lia.
  - apply (proj2 (proj2 (update_patch_urls_short_reply env3 w
                           (replicate 34 x00 ++ [x01; x61; x00; x00; x00])
                           eq_refl eq_refl eq_refl))).
    reflexivity.
Defined.

(** A text that starts with U+FEFF comes back without it. *)
Lemma update_patch_urls_drops_leading_bom :
  let url := [0xFEFF; 0x61] in
  let cdn := str "b" in
  let reply := handshake_response x00 (replicate 33 x00) url x00 cdn in
  let run := update_patch_urls (sample_env reply refuses) (sample_world fresh) in
  (length reply ≤ 1024)%nat
  ∧ Utf16.encode_le url = [xff; xfe; x61; x00]
  ∧ run.2 = Returns tt
  ∧ patch_url (self run.1) = Some [0x61]
  ∧ patch_url (self run.1) ≠ Some url
  ∧ patch_cdn_url (self run.1) = Some cdn.
Proof. vm_compute. repeat split; [lia|discriminate]. Qed.

Lemma update_patch_urls_round_trip_witness :
  let url := str "http://patch.example/3.23.0.1/" in
  let cdn := str "http://cdn.example/3.23.0.1/" in
  let reply := handshake_response x02 (replicate 33 x00) url x00 cdn ++ [x00; x00] in
  let run := update_patch_urls (sample_env reply refuses) (sample_world fresh) in
  run.2 = Returns tt
  ∧ patch_url (self run.1) = Some url
  ∧ patch_cdn_url (self run.1) = Some cdn
  ∧ sock_fd (self run.1) = Some 3%Z
  ∧ _master_server (self run.1) = (_SERVER, _PORT).
Proof.
  intros url cdn reply.
  apply (update_patch_urls_round_trip (sample_env reply refuses) (sample_world fresh)
           x02 (replicate 33 x00) x00 url cdn [x00; x00]).
  - reflexivity.
  - reflexivity.
  - reflexivity.
  - compute_done.
  - compute_done.
  - vm_compute; lia.
  - vm_compute; lia.
  - vm_compute; lia.
  - split; discriminate.
  - split; discriminate.
  - reflexivity.
Defined.

(** ** [download_raw] *)

Lemma download_raw_refused_by_both_witness :
  download_raw (sample_env [] refuses) (str "Data/Mods.dat") (sample_world discovered)
  = (with_requests (sample_world discovered)
       [str "http://cdn.example/3.23.0.1/Data/Mods.dat";
        str "http://patch.example/3.23.0.1/Data/Mods.dat"],
     Returns None).
Proof.
  apply (download_raw_refused_by_both (sample_env [] refuses) (str "Data/Mods.dat")
           (sample_world discovered)
           (str "http://cdn.example/3.23.0.1/") (str "http://patch.example/3.23.0.1/"));
    reflexivity.
Defined.

Lemma download_raw_returns_body_of_200_witness :
  download_raw (sample_env [] (serves [x50; x4b])) (str "Data/Mods.dat")
    (sample_world discovered)
  = (with_requests (sample_world discovered)
       [str "http://cdn.example/3.23.0.1/Data/Mods.dat"],
     Returns (Some [x50; x4b]))
  ∧ download_raw (sample_env [] (refuses_then_serves [x50; x4b])) (str "Data/Mods.dat")
      (sample_world discovered)
    = (with_requests (sample_world discovered)
         [str "http://cdn.example/3.23.0.1/Data/Mods.dat";
          str "http://patch.example/3.23.0.1/Data/Mods.dat"],
       Returns (Some [x50; x4b])).
Proof.
  split.
  - apply (proj1 (download_raw_returns_body_of_200
                    (sample_env [] (serves [x50; x4b])) (str "Data/Mods.dat")
                    (sample_world discovered)
                    (str "http://cdn.example/3.23.0.1/")
                    (str "http://patch.example/3.23.0.1/") [x50; x4b]
                    eq_refl eq_refl)).
    reflexivity.
  - apply (proj2 (download_raw_returns_body_of_200
                    (sample_env [] (refuses_then_serves [x50; x4b])) (str "Data/Mods.dat")
                    (sample_world discovered)
                    (str "http://cdn.example/3.23.0.1/")
                    (str "http://patch.example/3.23.0.1/") [x50; x4b]
                    eq_refl eq_refl)); reflexivity.
Defined.

(** ** [download] *)



(** A fetch that fails with 404 leaves the one-byte [/tmp/old.bin] empty. *)
Lemma download_failure_truncates_destination :
  let run := download (sample_env [] not_found) (str "Data/Mods.dat")
               None (Some (str "/tmp/old.bin")) (sample_world discovered) in
  Os.resolve sample_disk (str "/tmp/old.bin")
  = Returns (Os.Existing [str "tmp"; str "old.bin"] (Os.File [x61]))
  ∧ run.2 = Raises (HTTPError 404 "Not Found")
  ∧ Os.resolve (disk run.1) (str "/tmp/old.bin")
    = Returns (Os.Existing [str "tmp"; str "old.bin"] (Os.File [])).
Proof. vm_compute. repeat split; reflexivity. Qed.

Lemma download_failed_fetch_leaves_empty_file_witness :
  let env := sample_env [] not_found in
  let w := sample_world discovered in
  let w3 := (download env (str "Data/Mods.dat") None (Some (str "./new.bin")) w).1 in
  download env (str "Data/Mods.dat") None (Some (str "./new.bin")) w
  = (w3, Raises (HTTPError 404 "Not Found"))
  ∧ Os.resolve (disk w3) (str "./new.bin")
    = Returns (Os.Existing [str "tmp"; str "new.bin"] (Os.File [])).
Proof.
  intros env w w3.
  apply (download_failed_fetch_leaves_empty_file env (str "Data/Mods.dat")
           None (Some (str "./new.bin")) w (str "./new.bin")
           (on_disk (Os.makedirs (str ".")) w).1
           (on_disk (Os.open_wb (str "./new.bin")) w).1
           [str "tmp"; str "new.bin"] w3 (HTTPError 404 "Not Found"));
    vm_compute; reflexivity.
Defined.

Lemma download_bare_dst_file_witness :
  download (sample_env [] (serves [x50; x4b])) (str "Data/Mods.dat")
    None (Some (str "test.txt")) (sample_world discovered)
  = (sample_world discovered, Raises FileNotFoundError).
Proof.
  apply download_bare_dst_file; [reflexivity|discriminate|compute_done].
Defined.

(** ** [version] *)

Lemma version_of_wellformed_url_witness :
  version (sample_world discovered)
  = (sample_world discovered, Returns (str "3.23.0.1")).
Proof.
  apply (version_of_wellformed_url (sample_world discovered)
           (str "http://patch.example") (str "3.23.0.1"));
    [discriminate|compute_done|reflexivity].
Defined.

(** ** Teardown *)

Lemma del_swallows_shutdown_surfaces_close_witness :
  __del__ (teardown_env (Some (OSError "ENOTCONN")) None) (sample_world discovered)
  = (with_sock_ops (sample_world discovered) [(3%Z, SockShutdown); (3%Z, SockClose)],
     Returns tt)
  ∧ __del__ (teardown_env (Some (OSError "ENOTCONN")) (Some (OSError "EIO")))
      (sample_world discovered)
    = (with_sock_ops (sample_world discovered) [(3%Z, SockShutdown); (3%Z, SockClose)],
       Raises (OSError "EIO")).
Proof.
  split.
  - apply (proj1 (del_swallows_shutdown_surfaces_close
                    (teardown_env (Some (OSError "ENOTCONN")) None)
                    (sample_world discovered) 3%Z eq_refl eq_refl)
             (OSError "ENOTCONN")); reflexivity.
  - apply (proj2 (del_swallows_shutdown_surfaces_close
                    (teardown_env (Some (OSError "ENOTCONN")) (Some (OSError "EIO")))
                    (sample_world discovered) 3%Z eq_refl eq_refl)
             (OSError "EIO")); [reflexivity|].
    by intros e' [= <-].
Defined.

(** * Further properties of [patchserver.py] *)

(** ** [update_patch_urls], whatever the network does *)

(** Every way [update_patch_urls] can go: the connection fails, the send
    fails, the receive fails, or the bytes received are parsed. *)
Lemma update_patch_urls_cases env w :
  update_patch_urls env w
  = match connect_error env with
    | Some e =>
        (with_sock_ops w [(fileno env, SockConnect (_master_server (self w)));
                          (fileno env, SockClose)],
         Raises e)
    | None =>
        match send_error env with
        | Some e =>
            (with_sock_ops w [(fileno env, SockConnect (_master_server (self w)));
                              (fileno env, SockSend _PROTO);
                              (fileno env, SockClose)],
             Raises e)
        | None =>
            match recv_result env with
            | Raises e =>
                (with_sock_ops w
                   (handshake_ops (fileno env) (_master_server (self w))
                    ++ [(fileno env, SockClose)]),
                 Raises e)
            | Returns reply =>
                after_handshake env w (parse_handshake (take 1024 reply))
            end
        end
    end.
Proof.
  destruct (connect_error env) as [e|] eqn:Hconnect.
  { unfold update_patch_urls, with_socket, try_except, bind, get_self.
    unfold sock_connect, bind, log_sock, may_fail, raise, with_sock_ops.
    rewrite Hconnect. cbn [self disk requests sock_log]. by rewrite <- app_assoc. }
  destruct (send_error env) as [e|] eqn:Hsend.
  { unfold update_patch_urls, with_socket, try_except, bind, get_self.
    unfold sock_connect, sock_send, bind, log_sock, may_fail, raise, ret, with_sock_ops.
    rewrite Hconnect, Hsend. cbn [self disk requests sock_log].
    by rewrite <- !app_assoc. }
  destruct (recv_result env) as [reply|e] eqn:Hrecv.
  { by apply update_patch_urls_run. }
  unfold update_patch_urls, with_socket, try_except, bind, get_self.
  unfold sock_connect, sock_send, sock_recv, bind, log_sock, may_fail, raise, ret,
    lift, with_sock_ops, handshake_ops.
  rewrite Hconnect, Hsend, Hrecv. cbn [self disk requests sock_log].
  by rewrite <- !app_assoc.
Qed.

(** X1: [update_patch_urls] works on one socket only, the one it creates.
    When it raises, for whatever reason, the last thing it does is close
    that socket, which it never detached, and [sock_fd] is as before. When
    it returns, the last thing it does is detach the socket, which it never
    closed, and [sock_fd] is its descriptor. *)
Theorem update_patch_urls_socket_discipline env w :
  let run := update_patch_urls env w in
  ∃ ops,
    sock_log run.1 = sock_log w ++ ops
    ∧ Forall (λ ev, ev.1 = fileno env) ops
    ∧ match run.2 with
      | Returns _ =>
          last ops = Some (fileno env, SockDetach)
          ∧ ((fileno env, SockClose) ∉ ops)
          ∧ sock_fd (self run.1) = Some (fileno env)
      | Raises _ =>
          last ops = Some (fileno env, SockClose)
          ∧ ((fileno env, SockDetach) ∉ ops)
          ∧ sock_fd (self run.1) = sock_fd (self w)
      end.
Proof.
  intros run. subst run. rewrite update_patch_urls_cases.
  assert (Hnotin : ∀ (fd : Z) (x : sock_op) (l : list (Z * sock_op)),
            Forall (λ ev, ev.2 ≠ x) l → (fd, x) ∉ l).
  { intros fd x l Hl Hin. by apply (proj1 (Forall_forall _ _) Hl _ Hin). }
  destruct (connect_error env) as [e|]; [|destruct (send_error env) as [e|];
    [|destruct (recv_result env) as [reply|e];
      [destruct (parse_handshake (take 1024 reply)) as [e|url e|url cdn]|]]];
    eexists; (split; [reflexivity|]);
    (split; [by repeat constructor|]);
    (split; [reflexivity|]); (split; [|reflexivity]);
    apply Hnotin; by repeat constructor.
Qed.

(** X2: the handshake touches nothing but the [Patch] object and its own
    socket: the file system, the log of HTTP requests and [_master_server]
    are as before, whether it returns or raises. And [patch_cdn_url] changes
    only when the call returns: after a failed call it is what it was, even
    if [patch_url] has been replaced. *)
Theorem update_patch_urls_frame env w :
  let run := update_patch_urls env w in
  disk run.1 = disk w
  ∧ requests run.1 = requests w
  ∧ _master_server (self run.1) = _master_server (self w)
  ∧ (∀ e, run.2 = Raises e → patch_cdn_url (self run.1) = patch_cdn_url (self w)).
Proof.
  intros run. subst run. rewrite update_patch_urls_cases.
  destruct (connect_error env) as [e|]; [done|].
  destruct (send_error env) as [e|]; [done|].
  destruct (recv_result env) as [reply|e]; [|done].
  by destruct (parse_handshake (take 1024 reply)).
Qed.

(** X3: a second handshake on an object that already holds a descriptor
    replaces [sock_fd] and never shuts down or closes the descriptor it
    held: no operation of the call is made on it. *)
Theorem update_patch_urls_abandons_old_descriptor env w old :
  sock_fd (self w) = Some old →
  old ≠ fileno env →
  (update_patch_urls env w).2 = Returns tt →
  let w' := (update_patch_urls env w).1 in
  sock_fd (self w') = Some (fileno env)
  ∧ ∃ ops, sock_log w' = sock_log w ++ ops ∧ Forall (λ ev, ev.1 ≠ old) ops.
Proof.
  intros Hold Hne. rewrite update_patch_urls_cases.
  destruct (connect_error env) as [e|]; [done|].
  destruct (send_error env) as [e|]; [done|].
  destruct (recv_result env) as [reply|e]; [|done].
  destruct (parse_handshake (take 1024 reply)) as [e|url e|url cdn]; [done|done|].
  intros _. split; [done|]. eexists. split; [reflexivity|].
  by repeat constructor.
Qed.

(** ** The handshake: what the parse does not look at *)


(** The reserved byte between the two texts is read and dropped. *)
Lemma parse_texts_blank len1 text1 blank blank' rest :
  length text1 = (N.to_nat len1 * 2)%nat →
  parse_texts len1 (text1 ++ blank :: rest)
  = parse_texts len1 (text1 ++ blank' :: rest).
Proof.
  intros Hlen. unfold parse_texts.
  rewrite !BytesIO_read_app by done. cbv beta iota.
  by rewrite !BytesIO_read_one.
Qed.

Lemma reply_shape unknown blank33 len1 text1 blank (rest : bytes) :
  (unknown :: blank33 ++ len1 :: text1 ++ [blank]) ++ rest
  = unknown :: blank33 ++ len1 :: text1 ++ blank :: rest.
Proof.
  cbn [app]. f_equal. rewrite <- app_assoc. cbn [app]. do 2 f_equal.
  by rewrite <- app_assoc.
Qed.

Lemma take_1024_reply unknown blank33 len1 text1 blank (rest : bytes) :
  length blank33 = 33%nat → (length text1 ≤ 510)%nat →
  ∃ rest',
    take 1024 (unknown :: blank33 ++ len1 :: text1 ++ blank :: rest)
    = unknown :: blank33 ++ len1 :: text1 ++ blank :: rest'
    ∧ rest' = take (1024 - (36 + length text1)) rest.
Proof.
  intros H33 Htext. eexists. split; [|reflexivity].
  assert (length (unknown :: blank33 ++ len1 :: text1 ++ [blank])
          = (36 + length text1)%nat) as Hlen.
  { cbn [length]. rewrite length_app. cbn [length]. rewrite length_app.
    cbn [length]. lia. }
  rewrite <- reply_shape, take_app_ge by lia.
  by rewrite reply_shape, Hlen.
Qed.

(** X4: the reserved fields of the reply (the first byte, the 33 bytes after
    it, the byte between the two texts) are read and never looked at: two
    replies that differ only there give the same result. *)
Theorem update_patch_urls_ignores_reserved
    fd connect send fromfd shutdown close http wr w
    unknown unknown' blank33 blank33' len1 text1 blank blank' rest :
  length blank33 = 33%nat → length blank33' = 33%nat →
  length text1 = (N.to_nat (Byte.to_N len1) * 2)%nat →
  update_patch_urls
    (mkEnv fd connect send
       (Returns (unknown :: blank33 ++ len1 :: text1 ++ blank :: rest))
       fromfd shutdown close http wr) w
  = update_patch_urls
      (mkEnv fd connect send
         (Returns (unknown' :: blank33' ++ len1 :: text1 ++ blank' :: rest))
         fromfd shutdown close http wr) w.
Proof.
  intros H33 H33' Htext. rewrite !update_patch_urls_cases. cbn [connect_error
    send_error recv_result fileno].
  destruct connect as [e|]; [done|]. destruct send as [e|]; [done|].
  assert (length text1 ≤ 510)%nat as Hle.
  { pose proof (Byte.to_N_bounded len1). lia. }
  destruct (take_1024_reply unknown blank33 len1 text1 blank rest H33 Hle)
    as (rest1 & -> & ->).
  destruct (take_1024_reply unknown' blank33' len1 text1 blank' rest H33' Hle)
    as (rest2 & -> & ->).
  rewrite !parse_handshake_header by done.
  by rewrite (parse_texts_blank _ _ blank blank').
Qed.

Lemma update_patch_urls_ignores_reserved_witness :
  update_patch_urls
    (sample_env (x00 :: replicate 33 x00 ++ x01 :: [x61; x00] ++ x00 :: [x01; x62; x00])
       refuses) (sample_world fresh)
  = update_patch_urls
      (sample_env (x02 :: replicate 33 xff ++ x01 :: [x61; x00] ++ x07 :: [x01; x62; x00])
         refuses) (sample_world fresh).
Proof.
  apply (update_patch_urls_ignores_reserved 3%Z None None None None None refuses None
           (sample_world fresh) x00 x02 (replicate 33 x00) (replicate 33 xff)
           x01 [x61; x00] x00 x07 [x01; x62; x00]); reflexivity.
Defined.



(** ** Construction and teardown *)

(** [__init__] is the handshake run on an object that has its
    [_master_server] and nothing else. *)
Lemma init_run env master_server master_port w :
  __init__ env master_server master_port w
  = update_patch_urls env
      (mkWorld (mkPatch (master_server, master_port) None None None)
         (disk w) (requests w) (sock_log w)).
Proof. done. Qed.




(** X7: when [__init__] raises, whatever the reason, the object is left
    without [sock_fd] and without [patch_cdn_url]: [__del__] on it raises
    [AttributeError] before any socket call, and so does [download_raw]
    before any request. *)
Theorem failed_init_leaves_unusable_object
    env env' master_server master_port file_path w e :
  (__init__ env master_server master_port w).2 = Raises e →
  let w' := (__init__ env master_server master_port w).1 in
  __del__ env' w' = (w', Raises (AttributeError "sock_fd"))
  ∧ download_raw env' file_path w' = (w', Raises (AttributeError "patch_cdn_url")).
Proof.
  rewrite init_run, update_patch_urls_cases.
  unfold __del__, download_raw, bind, getattr.
  destruct (connect_error env) as [e1|]; [done|].
  destruct (send_error env) as [e1|]; [done|].
  destruct (recv_result env) as [reply|e1]; [|done].
  by destruct (parse_handshake (take 1024 reply)).
Qed.

Lemma failed_init_leaves_unusable_object_witness :
  let env := mkEnv 3 (Some ConnectionRefusedError) None (Returns []) None None None
               refuses None in
  let w' := (__init__ env _SERVER _PORT (sample_world discovered)).1 in
  __del__ env w' = (w', Raises (AttributeError "sock_fd"))
  ∧ download_raw env (str "Data/Mods.dat") w'
    = (w', Raises (AttributeError "patch_cdn_url")).
Proof.
  intros env.
  apply (failed_init_leaves_unusable_object env env _SERVER _PORT (str "Data/Mods.dat")
           (sample_world discovered) ConnectionRefusedError).
  reflexivity.
Defined.

(** X8: [socket_fd_close] and [__del__] do the same as long as [shutdown]
    does not fail. When [shutdown] fails, [socket_fd_close] raises at once
    and never calls [close]. *)
Theorem socket_fd_close_versus_del env w fd :
  sock_fd (self w) = Some fd →
  (shutdown_error env = None → __del__ env w = socket_fd_close env fd w)
  ∧ (∀ e, fromfd_error env = None → shutdown_error env = Some e →
          socket_fd_close env fd w
          = (with_sock_ops w [(fd, SockShutdown)], Raises e)).
Proof.
  intros Hfd. split.
  - intros Hsh. unfold __del__, socket_fd_close, bind, getattr, socket_fd_open, bind.
    rewrite Hfd. destruct (fromfd_error env) as [e|]; [done|]. simpl.
    unfold try_except, sock_shutdown, sock_close, bind, log_sock. rewrite Hsh. simpl.
    destruct (close_error env) as [e|]; [|done]. simpl. by destruct (is_OSError e).
  - intros e Hfrom Hsh. unfold socket_fd_close, bind, socket_fd_open, bind.
    rewrite Hfrom. simpl. unfold sock_shutdown, bind, log_sock. rewrite Hsh.
    done.
Qed.

Lemma socket_fd_close_versus_del_witness :
  __del__ (teardown_env None (Some (OSError "EIO"))) (sample_world discovered)
  = socket_fd_close (teardown_env None (Some (OSError "EIO"))) 3%Z
      (sample_world discovered)
  ∧ socket_fd_close (teardown_env (Some (OSError "ENOTCONN")) None) 3%Z
      (sample_world discovered)
    = (with_sock_ops (sample_world discovered) [(3%Z, SockShutdown)],
       Raises (OSError "ENOTCONN")).
Proof.
  split.
  - apply (proj1 (socket_fd_close_versus_del (teardown_env None (Some (OSError "EIO")))
                    (sample_world discovered) 3%Z eq_refl)).
    reflexivity.
  - apply (proj2 (socket_fd_close_versus_del
                    (teardown_env (Some (OSError "ENOTCONN")) None)
                    (sample_world discovered) 3%Z eq_refl)); reflexivity.
Defined.

(** ** [download_raw]: which urls are requested, and when [None] comes back *)

Lemma falls_back_inv len_hosts index e :
  falls_back len_hosts index e = true → e = URLError ReasonConnectionRefused.
Proof.
  unfold falls_back. destruct e as [| | | | |[]| | | | | | | |]; try done.
Qed.

(** X9: [download_raw] asks for [patch_cdn_url + file_path] first, always,
    and for [patch_url + file_path] second, only when the first attempt
    failed with a [URLError] whose reason is a refused connection. It makes
    no other request: at most two in all. *)
Theorem download_raw_requests env file_path w cdn url :
  patch_cdn_url (self w) = Some cdn →
  patch_url (self w) = Some url →
  let run := download_raw env file_path w in
  requests run.1 = requests w ++ [cdn ++ file_path]
  ∨ (requests run.1 = requests w ++ [cdn ++ file_path; url ++ file_path]
     ∧ attempt env (length (requests w)) (cdn ++ file_path)
       = Raises (URLError ReasonConnectionRefused)).
Proof.
  intros Hcdn Hurl run. subst run.
  rewrite (download_raw_run _ _ _ _ _ Hcdn Hurl), download_raw_for_cons.
  destruct (attempt env (length (requests w)) (cdn ++ file_path)) as [body|e];
    [by left|].
  destruct (falls_back 2 0 e) eqn:Hfb; [|by left].
  right. rewrite (falls_back_inv _ _ _ Hfb). split; [|done].
  rewrite download_raw_for_cons.
  destruct (attempt _ _ _) as [body|e']; simpl.
  - by rewrite <- app_assoc.
  - destruct (falls_back 2 1 e'); simpl; by rewrite <- app_assoc.
Qed.

Lemma download_raw_requests_witness :
  let run := download_raw (sample_env [] not_found) (str "Data/Mods.dat")
               (sample_world discovered) in
  requests run.1
  = requests (sample_world discovered) ++ [str "http://cdn.example/3.23.0.1/" ++ str "Data/Mods.dat"]
  ∨ (requests run.1
     = requests (sample_world discovered)
       ++ [str "http://cdn.example/3.23.0.1/" ++ str "Data/Mods.dat";
           str "http://patch.example/3.23.0.1/" ++ str "Data/Mods.dat"]
     ∧ attempt (sample_env [] not_found) (length (requests (sample_world discovered)))
         (str "http://cdn.example/3.23.0.1/" ++ str "Data/Mods.dat")
       = Raises (URLError ReasonConnectionRefused)).
Proof.
  apply (download_raw_requests (sample_env [] not_found) (str "Data/Mods.dat")
           (sample_world discovered)
           (str "http://cdn.example/3.23.0.1/") (str "http://patch.example/3.23.0.1/"));
    reflexivity.
Defined.

(** X10: [download_raw] returns [None] in exactly one situation: both
    attempts failed with a [URLError] whose reason is a refused connection.
    In every other situation it returns the bytes of a response or raises. *)
Theorem download_raw_returns_None_iff env file_path w cdn url :
  patch_cdn_url (self w) = Some cdn →
  patch_url (self w) = Some url →
  (download_raw env file_path w).2 = Returns None
  ↔ (attempt env (length (requests w)) (cdn ++ file_path)
       = Raises (URLError ReasonConnectionRefused)
     ∧ attempt env (S (length (requests w))) (url ++ file_path)
       = Raises (URLError ReasonConnectionRefused)).
Proof.
  intros Hcdn Hurl.
  rewrite (download_raw_run _ _ _ _ _ Hcdn Hurl), download_raw_for_cons.
  destruct (attempt env (length (requests w)) (cdn ++ file_path)) as [body|e].
  { split; [done|]. by intros [? _]. }
  destruct (falls_back 2 0 e) eqn:Hfb.
  2:{ split; [done|]. intros [[= ->] _]. by rewrite falls_back_refused in Hfb by lia. }
  rewrite (falls_back_inv _ _ _ Hfb), download_raw_for_cons.
  simpl requests. rewrite length_app, Nat.add_1_r.
  destruct (attempt env (S (length (requests w))) (url ++ file_path)) as [body|e'].
  { split; [done|]. by intros [_ ?]. }
  destruct (falls_back 2 1 e') eqn:Hfb'.
  - rewrite (falls_back_inv _ _ _ Hfb'). by split.
  - split; [done|]. intros [_ [= ->]]. by rewrite falls_back_refused in Hfb' by lia.
Qed.

Lemma download_raw_returns_None_iff_witness :
  (download_raw (sample_env [] refuses) (str "Data/Mods.dat")
     (sample_world discovered)).2 = Returns None.
Proof.
  apply (proj2 (download_raw_returns_None_iff
                  (sample_env [] refuses) (str "Data/Mods.dat")
                  (sample_world discovered)
                  (str "http://cdn.example/3.23.0.1/")
                  (str "http://patch.example/3.23.0.1/") eq_refl eq_refl)).
  split; reflexivity.
Defined.

(** ** [download]: what ends up on disk *)

(** X11: when the directories are made, the destination is opened and the
    fetch returns bytes, what [download] does depends on the write alone.
    If the write does not fail, [download] returns and the destination is a
    regular file holding exactly those bytes. If the write fails, [download]
    raises the write's exception and the destination holds the bytes that
    had been written. Either way the object and the requests are as the
    fetch left them. *)
Theorem download_writes_body
    env file_path dst_dir dst_file w write_path w1 w2 f w3 body :
  download_write_path file_path dst_dir dst_file = Returns write_path →
  on_disk (Os.makedirs (Os.path_split write_path).1) w = (w1, Returns tt) →
  on_disk (Os.open_wb write_path) w1 = (w2, Returns f) →
  download_raw env file_path w2 = (w3, Returns (Some body)) →
  let run := download env file_path dst_dir dst_file w in
  (write_error env = None →
   run.2 = Returns tt
   ∧ Os.resolve (disk run.1) write_path = Returns (Os.Existing f (Os.File body)))
  ∧ (∀ e written, write_error env = Some (e, written) →
     run.2 = Raises e
     ∧ Os.resolve (disk run.1) write_path
       = Returns (Os.Existing f (Os.File (take written body))))
  ∧ requests run.1 = requests w3
  ∧ self run.1 = self w.
Proof.
  intros Hpath Hmk Hopen Hraw run. subst run.
  destruct (download_after_open _ _ _ _ _ _ _ _ _ _ _ Hpath Hmk Hopen Hraw)
    as [-> Hres].
  rewrite on_disk_run. cbn [Os.write fst snd disk requests self].
  assert (self w3 = self w) as Hself.
  { pose proof (download_raw_keeps self env file_path self_off_network w2) as H3.
    rewrite Hraw in H3. simpl in H3. rewrite H3.
    pose proof (on_disk_keeps_self (Os.open_wb write_path) w1) as H2.
    rewrite Hopen in H2. simpl in H2. rewrite H2.
    pose proof (on_disk_keeps_self (Os.makedirs (Os.path_split write_path).1) w) as H1.
    rewrite Hmk in H1. by simpl in H1. }
  destruct (write_error env) as [[e written]|]; cbn [fst snd].
  - split; [done|]. split; [|done]. intros e' written' [= <- <-].
    split; [done|]. by apply (resolve_write _ _ _ []).
  - split; [|by split]. intros _. split; [done|]. by apply (resolve_write _ _ _ []).
Qed.

Lemma download_writes_body_witness :
  let w := sample_world discovered in
  let full := mkEnv 3 None None (Returns []) None None None (serves [x50; x4b])
                (Some (OSError "ENOSPC", 1%nat)) in
  let run := download (sample_env [] (serves [x50; x4b])) (str "Data/Mods.dat")
               (Some (str "out")) None w in
  let run' := download full (str "Data/Mods.dat") (Some (str "out")) None w in
  (run.2 = Returns tt
   ∧ Os.resolve (disk run.1) (str "out/Data/Mods.dat")
     = Returns (Os.Existing [str "tmp"; str "out"; str "Data"; str "Mods.dat"]
                  (Os.File [x50; x4b])))
  ∧ (run'.2 = Raises (OSError "ENOSPC")
     ∧ Os.resolve (disk run'.1) (str "out/Data/Mods.dat")
       = Returns (Os.Existing [str "tmp"; str "out"; str "Data"; str "Mods.dat"]
                    (Os.File [x50]))).
Proof.
  intros w full. split.
  - apply (proj1 (download_writes_body (sample_env [] (serves [x50; x4b]))
             (str "Data/Mods.dat") (Some (str "out")) None w
             (str "out/Data/Mods.dat")
             (on_disk (Os.makedirs (str "out/Data")) w).1
             (on_disk (Os.open_wb (str "out/Data/Mods.dat"))
                (on_disk (Os.makedirs (str "out/Data")) w).1).1
             [str "tmp"; str "out"; str "Data"; str "Mods.dat"]
             (download_raw (sample_env [] (serves [x50; x4b])) (str "Data/Mods.dat")
                (on_disk (Os.open_wb (str "out/Data/Mods.dat"))
                   (on_disk (Os.makedirs (str "out/Data")) w).1).1).1
             [x50; x4b]
             ltac:(vm_compute; reflexivity) ltac:(vm_compute; reflexivity)
             ltac:(vm_compute; reflexivity) ltac:(vm_compute; reflexivity))).
    reflexivity.
  - apply (proj1 (proj2 (download_writes_body full
             (str "Data/Mods.dat") (Some (str "out")) None w
             (str "out/Data/Mods.dat")
             (on_disk (Os.makedirs (str "out/Data")) w).1
             (on_disk (Os.open_wb (str "out/Data/Mods.dat"))
                (on_disk (Os.makedirs (str "out/Data")) w).1).1
             [str "tmp"; str "out"; str "Data"; str "Mods.dat"]
             (download_raw full (str "Data/Mods.dat")
                (on_disk (Os.open_wb (str "out/Data/Mods.dat"))
                   (on_disk (Os.makedirs (str "out/Data")) w).1).1).1
             [x50; x4b]
             ltac:(vm_compute; reflexivity) ltac:(vm_compute; reflexivity)
             ltac:(vm_compute; reflexivity) ltac:(vm_compute; reflexivity)))
             (OSError "ENOSPC") 1%nat).
    reflexivity.
Defined.

(** X12: when both candidates refuse the connection and [download_raw]
    hands back [None], [download] raises [TypeError] out of [f.write] and
    the destination is left as an empty regular file. *)
Theorem download_of_None_raises_TypeError
    env file_path dst_dir dst_file w write_path w1 w2 f w3 :
  download_write_path file_path dst_dir dst_file = Returns write_path →
  on_disk (Os.makedirs (Os.path_split write_path).1) w = (w1, Returns tt) →
  on_disk (Os.open_wb write_path) w1 = (w2, Returns f) →
  download_raw env file_path w2 = (w3, Returns None) →
  let run := download env file_path dst_dir dst_file w in
  run.2 = Raises TypeError
  ∧ Os.resolve (disk run.1) write_path = Returns (Os.Existing f (Os.File [])).
Proof.
  intros Hpath Hmk Hopen Hraw run. subst run.
  destruct (download_after_open _ _ _ _ _ _ _ _ _ _ _ Hpath Hmk Hopen Hraw)
    as [-> Hres].
  rewrite on_disk_run. cbn [Os.write fst snd disk]. by split.
Qed.

Lemma download_of_None_raises_TypeError_witness :
  let env := sample_env [] refuses in
  let w := sample_world discovered in
  let run := download env (str "Data/Mods.dat") None (Some (str "/tmp/old.bin")) w in
  run.2 = Raises TypeError
  ∧ Os.resolve (disk run.1) (str "/tmp/old.bin")
    = Returns (Os.Existing [str "tmp"; str "old.bin"] (Os.File [])).
Proof.
  intros env w.
  apply (download_of_None_raises_TypeError env (str "Data/Mods.dat") None
           (Some (str "/tmp/old.bin")) w (str "/tmp/old.bin")
           (on_disk (Os.makedirs (str "/tmp")) w).1
           (on_disk (Os.open_wb (str "/tmp/old.bin")) w).1
           [str "tmp"; str "old.bin"]
           (download_raw env (str "Data/Mods.dat")
              (on_disk (Os.open_wb (str "/tmp/old.bin")) w).1).1);
    vm_compute; reflexivity.
Defined.

(** X13: a [file_path] that starts with a slash makes [os.path.join] drop
    [dst_dir]: the file is written at [file_path] itself, as if it had been
    given as [dst_file]. *)
Theorem download_absolute_file_path env file_path dst_dir dst_file w :
  truthy dst_dir = true →
  PyStr.startswith slash file_path = true →
  download env file_path dst_dir dst_file w
  = download env file_path None (Some file_path) w.
Proof.
  intros Hdir Habs. unfold download, download_write_path, Os.path_join.
  rewrite Hdir, Habs. destruct file_path as [|c file_path]; [done|]. done.
Qed.

Lemma download_absolute_file_path_witness :
  download (sample_env [] (serves [x50])) (str "/tmp/old.bin") (Some (str "out")) None
    (sample_world discovered)
  = download (sample_env [] (serves [x50])) (str "/tmp/old.bin") None
      (Some (str "/tmp/old.bin")) (sample_world discovered).
Proof.
  apply download_absolute_file_path; reflexivity.
Defined.

(** ** [download]: what it leaves alone on disk *)









(** ** [version] on any url *)

Lemma rpartition_after c s : c ∉ (PyStr.rpartition c s).2.
Proof.
  induction s as [|x s IH]; simpl; [apply not_elem_of_nil|].
  destruct (PyStr.rpartition c s) as [[before|] after]; simpl in *; [done|].
  destruct (N.eqb_spec x c); simpl; [done|].
  apply not_elem_of_cons. split; [congruence|done].
Qed.

Lemma lstrip_nil_iff c s : PyStr.lstrip c s = [] ↔ Forall (λ x, x = c) s.
Proof.
  induction s as [|x s IH]; simpl; [by split|].
  destruct (N.eqb_spec x c) as [->|Hne].
  - rewrite IH. split; [by constructor|].
    intros H. by apply Forall_cons in H as [_ H].
  - split; [done|]. intros H. by apply Forall_cons in H as [H _].
Qed.

Lemma lstrip_Forall c s : Forall (λ x, x = c) (PyStr.lstrip c s) → Forall (λ x, x = c) s.
Proof.
  induction s as [|x s IH]; simpl; [done|].
  destruct (N.eqb_spec x c) as [->|Hne]; [|done].
  intros H. constructor; [done|]. by apply IH.
Qed.

Lemma lstrip_not_startswith c s : PyStr.startswith c (PyStr.lstrip c s) = false.
Proof.
  induction s as [|x s IH]; simpl; [done|].
  destruct (N.eqb_spec x c) as [->|Hne]; [done|]. simpl. by apply N.eqb_neq.
Qed.

Lemma rstrip_not_endswith c s : PyStr.endswith c (PyStr.rstrip c s) = false.
Proof.
  unfold PyStr.endswith, PyStr.rstrip. rewrite reverse_involutive.
  apply lstrip_not_startswith.
Qed.

Lemma rstrip_nil_iff c s : PyStr.rstrip c s = [] ↔ Forall (λ x, x = c) s.
Proof.
  unfold PyStr.rstrip. split.
  - intros H. apply (f_equal reverse) in H. rewrite reverse_involutive in H.
    apply lstrip_nil_iff in H. apply Forall_reverse in H.
    by rewrite reverse_involutive in H.
  - intros H. apply Forall_reverse in H. apply lstrip_nil_iff in H. by rewrite H.
Qed.

Lemma strip_nil_iff c s : PyStr.strip c s = [] ↔ Forall (λ x, x = c) s.
Proof.
  unfold PyStr.strip. rewrite rstrip_nil_iff. split.
  - apply lstrip_Forall.
  - intros H. apply lstrip_nil_iff in H. by rewrite H.
Qed.

(** X15: whatever [patch_url] holds, [version] returns (it never raises
    [IndexError]) and leaves the world alone; what it returns contains no
    slash, is the end of the url stripped of its slashes, and is empty
    exactly when the url is empty or made of slashes only. *)
Theorem version_of_any_url w url :
  patch_url (self w) = Some url →
  ∃ v, version w = (w, Returns v)
       ∧ (slash ∉ v)
       ∧ (∃ q, PyStr.strip slash url = q ++ v)
       ∧ (v = [] ↔ Forall (λ c, c = slash) url).
Proof.
  intros Hurl. unfold version, bind, getattr, lift. rewrite Hurl.
  pose proof (strip_nil_iff slash url) as Hnil. unfold PyStr.strip in *.
  pose proof (rstrip_not_endswith slash (PyStr.lstrip slash url)) as Hend.
  set (s := PyStr.rstrip slash (PyStr.lstrip slash url)) in *. clearbody s.
  unfold PyStr.rsplit1.
  pose proof (rpartition_inv slash s) as Hinv.
  pose proof (rpartition_after slash s) as Hafter.
  destruct (PyStr.rpartition slash s) as [[before|] after]; simpl in Hafter.
  - exists after. split; [done|]. split; [done|]. split.
    + exists (before ++ [slash]). by rewrite <- app_assoc.
    + rewrite <- Hnil. subst s. split; [|by destruct before].
      intros ->. unfold PyStr.endswith in Hend.
      rewrite reverse_snoc in Hend. by simpl in Hend.
  - exists after. split; [done|]. split; [done|]. subst s. split; [by exists []|done].
Qed.

Lemma version_of_any_url_witness :
  ∃ v, version (sample_world (mkPatch (_SERVER, _PORT) (Some (str "///")) None None))
       = (sample_world (mkPatch (_SERVER, _PORT) (Some (str "///")) None None), Returns v)
       ∧ (slash ∉ v)
       ∧ (∃ q, PyStr.strip slash (str "///") = q ++ v)
       ∧ (v = [] ↔ Forall (λ c, c = slash) (str "///")).
Proof.
  apply (version_of_any_url
           (sample_world (mkPatch (_SERVER, _PORT) (Some (str "///")) None None))
           (str "///")).
  reflexivity.
Defined.

(** ** More on [download], [download_raw] and [__del__] *)

(** X16: [download] makes no request before its destination is open: if a
    request was made, the destination arguments were accepted, the
    directories were made and [open] succeeded. *)
Theorem download_requests_only_after_open env file_path dst_dir dst_file w :
  requests (download env file_path dst_dir dst_file w).1 = requests w
  ∨ ∃ write_path f,
      download_write_path file_path dst_dir dst_file = Returns write_path
      ∧ (Os.makedirs (Os.path_split write_path).1 (disk w)).2 = Returns tt
      ∧ (Os.open_wb write_path
           (Os.makedirs (Os.path_split write_path).1 (disk w)).1).2 = Returns f.
Proof.
  unfold download, bind, lift.
  destruct (download_write_path file_path dst_dir dst_file) as [write_path|e];
    [|by left].
  rewrite on_disk_run.
  destruct (Os.makedirs (Os.path_split write_path).1 (disk w))
    as [fs1 [[]|e]] eqn:Hmk; cbn [fst snd]; [|by left].
  rewrite on_disk_run. cbn [disk self requests sock_log].
  destruct (Os.open_wb write_path fs1) as [fs2 [f|e]] eqn:Hopen; cbn [fst snd];
    [|by left].
  right. exists write_path, f. rewrite Hmk. cbn [fst snd]. by rewrite Hopen.
Qed.

(** X17: [__del__] changes no attribute: [sock_fd] still holds the
    descriptor afterwards, so that a second call works on the same
    descriptor again. The file system and the requests are untouched. *)
Theorem del_keeps_attributes env w :
  let w' := (__del__ env w).1 in
  self w' = self w ∧ disk w' = disk w ∧ requests w' = requests w.
Proof.
  intros w'. subst w'. unfold __del__, bind, getattr.
  destruct (sock_fd (self w)) as [fd|]; [|done].
  unfold socket_fd_open, bind.
  destruct (fromfd_error env) as [e|]; [done|]. simpl.
  unfold try_except, sock_shutdown, sock_close, bind, log_sock.
  destruct (shutdown_error env) as [e|]; simpl.
  - destruct (is_OSError e); simpl; [|done].
    destruct (close_error env) as [e'|]; simpl; [|done]. by destruct (is_OSError e').
  - destruct (close_error env) as [e'|]; simpl; [|done]. by destruct (is_OSError e').
Qed.

(** X18: an answer of the CDN candidate that is not status 200 ends
    [download_raw] at once, after that single request: a response with
    another status raises [ValueError] with the status in its message, and
    an [HTTPError] raised by [urlopen] (a 404, say) is raised as it is. The
    master candidate is not tried. *)
Theorem download_raw_status_not_200 env file_path w cdn url :
  patch_cdn_url (self w) = Some cdn →
  patch_url (self w) = Some url →
  (∀ robj,
     urlopen env (length (requests w)) (cdn ++ file_path) = Returns robj →
     getcode robj ≠ 200%Z →
     download_raw env file_path w
     = (with_requests w [cdn ++ file_path],
        Raises (ValueError ("HTTP response code: " ++ PyStr.format_int (getcode robj)))))
  ∧ (∀ code msg,
       urlopen env (length (requests w)) (cdn ++ file_path)
         = Raises (HTTPError code msg) →
       download_raw env file_path w
       = (with_requests w [cdn ++ file_path], Raises (HTTPError code msg))).
Proof.
  intros Hcdn Hurl. split.
  - intros robj Hopen Hcode.
    apply (download_raw_surfaces_cdn_failure _ _ _ _ _ _ Hcdn Hurl); [|done].
    unfold attempt. rewrite Hopen.
    destruct (Z.eqb_spec (getcode robj) 200); [done|done].
  - intros code msg Hopen.
    apply (download_raw_surfaces_cdn_failure _ _ _ _ _ _ Hcdn Hurl); [|done].
    unfold attempt. by rewrite Hopen.
Qed.

Lemma download_raw_status_not_200_witness :
  download_raw (sample_env [] (λ _ _, Returns (mkResponse 204 (Returns []))))
    (str "Data/Mods.dat") (sample_world discovered)
  = (with_requests (sample_world discovered)
       [str "http://cdn.example/3.23.0.1/" ++ str "Data/Mods.dat"],
     Raises (ValueError "HTTP response code: 204"))
  ∧ download_raw (sample_env [] not_found) (str "Data/Mods.dat")
      (sample_world discovered)
    = (with_requests (sample_world discovered)
         [str "http://cdn.example/3.23.0.1/" ++ str "Data/Mods.dat"],
       Raises (HTTPError 404 "Not Found")).
Proof.
  split.
  - apply (proj1 (download_raw_status_not_200
                    (sample_env [] (λ _ _, Returns (mkResponse 204 (Returns []))))
                    (str "Data/Mods.dat") (sample_world discovered)
                    (str "http://cdn.example/3.23.0.1/")
                    (str "http://patch.example/3.23.0.1/") eq_refl eq_refl)
             (mkResponse 204 (Returns []))); [reflexivity|discriminate].
  - apply (proj2 (download_raw_status_not_200
                    (sample_env [] not_found)
                    (str "Data/Mods.dat") (sample_world discovered)
                    (str "http://cdn.example/3.23.0.1/")
                    (str "http://patch.example/3.23.0.1/") eq_refl eq_refl)).
    reflexivity.
Defined.

(** ** Samples for the properties without a witness above *)

Lemma update_patch_urls_frame_witness :
  let env := sample_env (replicate 34 x00 ++ [x01; x61; x00]) refuses in
  let run := update_patch_urls env (sample_world discovered) in
  disk run.1 = sample_disk
  ∧ requests run.1 = []
  ∧ _master_server (self run.1) = (_SERVER, _PORT)
  ∧ (∀ e, run.2 = Raises e →
          patch_cdn_url (self run.1) = Some (str "http://cdn.example/3.23.0.1/")).
Proof.
  intros env.
  apply (update_patch_urls_frame env (sample_world discovered)).
Defined.

Lemma update_patch_urls_abandons_old_descriptor_witness :
  let reply := handshake_response x02 (replicate 33 x00) (str "http://p/1/") x00
                 (str "http://c/1/") in
  let env := mkEnv 4 None None (Returns reply) None None None refuses None in
  let w' := (update_patch_urls env (sample_world discovered)).1 in
  sock_fd (self w') = Some 4%Z
  ∧ ∃ ops, sock_log w' = sock_log (sample_world discovered) ++ ops
           ∧ Forall (λ ev, ev.1 ≠ 3%Z) ops.
Proof.
  intros reply env.
  apply (update_patch_urls_abandons_old_descriptor env (sample_world discovered) 3%Z).
  - reflexivity.
  - discriminate.
  - vm_compute. reflexivity.
Defined.

